(** * Romania Running: the client-side sort, render and chart pipeline

    A shallow embedding of the page scripts of the running-event calendar
    (all-competitions page, statistics page, bad-news page, home page badge)
    and the properties of their specification.

    Conventions of the embedding:
    - a JavaScript string is the list of its UTF-16 code units ([jsstring]);
    - a JavaScript number is an integer or NaN ([number]); the scripts only
      add, subtract and compare integers read from JSON or from [parseInt],
      which IEEE doubles do exactly below 2^53;
    - a JSON object is a finite map from property names to values;
    - a thrown [TypeError] is the [Throw] outcome of a [completion];
    - what the browser supplies ([String.prototype.toLowerCase], [Date]) is
      a [Runtime] interface. *)

From Stdlib Require Import ZArith NArith List Lia Bool Ascii String.
From Stdlib Require Import Permutation Sorted DecimalPos.
From stdpp Require Import base option list sorting gmap.

Import ListNotations.
Local Open Scope Z_scope.

(** ** Strings *)

Module JsString.

(** UTF-16 code units. *)
Abbreviation jsstring := (list N).

(** A string literal of the source whose characters are all ASCII. *)
Definition lit (s : string) : jsstring :=
  map N_of_ascii (list_ascii_of_string s).
Arguments lit s%_string.

Definition eqb (s t : jsstring) : bool := bool_decide (s = t).

(** [s.split(sep)] for a separator of one code unit: the pieces between
    the occurrences of [sep]; the empty string gives one empty piece. *)
Fixpoint split (sep : N) (s : jsstring) : list jsstring :=
  match s with
  | [] => [[]]
  | c :: s' =>
      if N.eqb c sep then [] :: split sep s'
      else match split sep s' with
           | [] => [[c]]
           | p :: ps => (c :: p) :: ps
           end
  end.

(** How many times the code unit [c] occurs in [s]. *)
Definition occurrences (c : N) (s : jsstring) : nat :=
  length (filter (fun x => N.eqb x c = true) s).

(** [s.startsWith(p)]. *)
Fixpoint startsWith (p s : jsstring) : bool :=
  match p, s with
  | [], _ => true
  | _ :: _, [] => false
  | a :: p', b :: s' => N.eqb a b && startsWith p' s'
  end.

(** [s < t] on strings: lexicographic on code units, a proper prefix
    first. *)
Fixpoint ltb (s t : jsstring) : bool :=
  match s, t with
  | _, [] => false
  | [], _ :: _ => true
  | a :: s', b :: t' =>
      if N.ltb a b then true
      else if N.ltb b a then false
      else ltb s' t'
  end.

(** [s.replace(new RegExp(c, 'g'), r)] for a pattern that is the single,
    non-special character [c] and a replacement [r] without [$]. *)
Definition replaceAll (c : N) (r : jsstring) (s : jsstring) : jsstring :=
  flat_map (fun x => if N.eqb x c then r else [x]) s.

(** [s.padStart(n, pad)] for a filler of one code unit. *)
Definition padStart (n : nat) (pad : N) (s : jsstring) : jsstring :=
  repeat pad (n - length s) ++ s.

End JsString.
Abbreviation jsstring := JsString.jsstring.
Abbreviation lit := JsString.lit.

(** ** Numbers and values *)

(** The numbers the scripts compute with. *)
Inductive number : Type :=
  | NaN
  | Int (z : Z).

(** [a - b], [a * b], [a + b]: NaN is absorbing. *)
Definition num_lift2 (f : Z -> Z -> Z) (a b : number) : number :=
  match a, b with
  | Int x, Int y => Int (f x y)
  | _, _ => NaN
  end.
Definition num_sub := num_lift2 Z.sub.
Definition num_add := num_lift2 Z.add.
Definition num_mul := num_lift2 Z.mul.

(** [a === 0] on numbers. *)
Definition num_is_zero (a : number) : bool :=
  match a with
  | Int 0 => true
  | _ => false
  end.

(** [a > b] on numbers: false as soon as one side is NaN. *)
Definition num_gtb (a b : number) : bool :=
  match a, b with
  | Int x, Int y => Z.gtb x y
  | _, _ => false
  end.

(** [a || 0] on numbers: NaN and 0 are falsy. *)
Definition num_or_zero (a : number) : Z :=
  match a with
  | NaN => 0
  | Int z => z
  end.

(** The scalar values JSON.parse puts in the fields this code reads, and
    [undefined] for a property that is not there. *)
Inductive JsVal : Type :=
  | JUndefined
  | JNull
  | JBool (b : bool)
  | JNum (n : Z)
  | JStr (s : jsstring).

Global Instance JsVal_eq_dec : EqDecision JsVal.
Proof. solve_decision. Defined.

(** ToBoolean. *)
Definition truthy (v : JsVal) : bool :=
  match v with
  | JUndefined | JNull => false
  | JBool b => b
  | JNum n => negb (n =? 0)
  | JStr s => negb (JsString.eqb s [])
  end.

(** [v || d]. *)
Definition or_else (v d : JsVal) : JsVal := if truthy v then v else d.

(** [typeof v === 'string']. *)
Definition is_string (v : JsVal) : bool :=
  match v with
  | JStr _ => true
  | _ => false
  end.

(** Decimal digits of a non-negative integer, as code units. *)
Fixpoint uint_units (d : Decimal.uint) : jsstring :=
  match d with
  | Decimal.Nil => []
  | Decimal.D0 r => 48%N :: uint_units r
  | Decimal.D1 r => 49%N :: uint_units r
  | Decimal.D2 r => 50%N :: uint_units r
  | Decimal.D3 r => 51%N :: uint_units r
  | Decimal.D4 r => 52%N :: uint_units r
  | Decimal.D5 r => 53%N :: uint_units r
  | Decimal.D6 r => 54%N :: uint_units r
  | Decimal.D7 r => 55%N :: uint_units r
  | Decimal.D8 r => 56%N :: uint_units r
  | Decimal.D9 r => 57%N :: uint_units r
  end.

(** Number::toString on an integer (below 10^21, where JavaScript switches
    to exponent notation). *)
Definition int_toString (n : Z) : jsstring :=
  match n with
  | Z0 => lit "0"
  | Zpos p => uint_units (Pos.to_uint p)
  | Zneg p => 45%N :: uint_units (Pos.to_uint p)
  end.

(** ToString. *)
Definition toString (v : JsVal) : jsstring :=
  match v with
  | JUndefined => lit "undefined"
  | JNull => lit "null"
  | JBool b => if b then lit "true" else lit "false"
  | JNum n => int_toString n
  | JStr s => s
  end.

(** ** parseInt *)

Module ParseInt.

(** WhiteSpace and LineTerminator code units, which [parseInt] skips at
    the front of its input. *)
Definition is_whitespace (c : N) : bool :=
  ((9 <=? c) && (c <=? 13) || (c =? 32) || (c =? 160) || (c =? 5760)
   || (8192 <=? c) && (c <=? 8202) || (c =? 8232) || (c =? 8233)
   || (c =? 8239) || (c =? 8287) || (c =? 12288) || (c =? 65279))%N.

Fixpoint trimStart (s : jsstring) : jsstring :=
  match s with
  | c :: s' => if is_whitespace c then trimStart s' else s
  | [] => []
  end.

(** The value of a code unit as a digit of the given radix (10 or 16). *)
Definition digit_value (radix : Z) (c : N) : option Z :=
  let z := Z.of_N c in
  if (48 <=? z) && (z <=? 57) then Some (z - 48)
  else if (radix =? 16) && (97 <=? z) && (z <=? 102) then Some (z - 87)
  else if (radix =? 16) && (65 <=? z) && (z <=? 70) then Some (z - 55)
  else None.

(** The longest prefix of digits, read in the radix; [None] when the
    prefix is empty. [acc] is the value read so far and [seen] tells
    whether a digit was read. *)
Fixpoint read_digits (radix : Z) (seen : bool) (acc : Z) (s : jsstring)
  : option Z :=
  match s with
  | c :: s' =>
      match digit_value radix c with
      | Some d => read_digits radix true (acc * radix + d) s'
      | None => if seen then Some acc else None
      end
  | [] => if seen then Some acc else None
  end.

(** After the sign: a [0x] or [0X] prefix selects radix 16. *)
Definition read_unsigned (s : jsstring) : option Z :=
  match s with
  | 48%N :: x :: s' =>
      if ((x =? 120) || (x =? 88))%N then read_digits 16 false 0 s'
      else read_digits 10 false 0 s
  | _ => read_digits 10 false 0 s
  end.

(** [parseInt(s)] with no radix argument. The digits are read exactly,
    as JavaScript reads them up to 2^53; beyond that a number rounds. *)
Definition parseInt_string (s : jsstring) : number :=
  match trimStart s with
  | 45%N :: s' =>
      match read_unsigned s' with Some z => Int (- z) | None => NaN end
  | 43%N :: s' =>
      match read_unsigned s' with Some z => Int z | None => NaN end
  | s' =>
      match read_unsigned s' with Some z => Int z | None => NaN end
  end.

End ParseInt.
Export ParseInt.

(** [parseInt(v)]: the argument is first converted to a string. *)
Definition parseInt (v : JsVal) : number := parseInt_string (toString v).


(** ** Outcomes of a call *)

(** A call returns a value or throws; the only exception these scripts can
    raise in the modelled fragment is a [TypeError]. *)
Inductive completion (A : Type) : Type :=
  | Return (x : A)
  | Throw.
Arguments Return {A} x.
Arguments Throw {A}.

Global Instance completion_ret : MRet completion := @Return.
Global Instance completion_bind : MBind completion :=
  fun A B f m => match m with Return x => f x | Throw => Throw end.

(** ** What the browser supplies *)

(** The fields a [Date] object answers with. *)
Record date_value : Type := {
  getFullYear : Z;
  getMonth : Z;
  getDate : Z;
  getDay : Z
}.

Class Runtime : Type := {
  (** [String.prototype.toLowerCase], the Unicode lower-case mapping. *)
  toLowerCase : jsstring -> jsstring;
  (** [new Date(year, monthIndex, day)] read back through its getters. *)
  newDate : Z -> Z -> Z -> date_value
}.

(** ** Array.prototype.sort *)

(** The sort is the runtime's. ECMAScript fixes its result whenever the
    comparator is consistent: the elements in comparator order, equal ones
    in their original order. It is modelled by stable insertion; a
    comparator result of NaN counts as 0, and an exception thrown by the
    comparator leaves the sort. *)
Section ArraySort.
Context {A : Type}.
Variable comparefn : A -> A -> completion number.

Definition sortCompare (x y : A) : completion Z :=
  v ← comparefn x y; mret (num_or_zero v).

Fixpoint sort_insert (x : A) (l : list A) : completion (list A) :=
  match l with
  | [] => mret [x]
  | y :: l' =>
      c ← sortCompare x y;
      if c <=? 0 then mret (x :: y :: l')
      else r ← sort_insert x l'; mret (y :: r)
  end.

Fixpoint Array_sort (l : list A) : completion (list A) :=
  match l with
  | [] => mret []
  | x :: l' => s ← Array_sort l'; sort_insert x s
  end.
End ArraySort.

(** ** All-competitions page *)

(** A competition record as fetched: its own properties. A property that
    is absent reads as [undefined]; the members every object inherits
    from [Object.prototype] are not column names of the page. *)
Abbreviation record := (gmap jsstring JsVal).

(** [r[key]]. *)
Definition get (r : record) (key : jsstring) : JsVal :=
  default JUndefined (r !! key).

(** The [months] table of [dateToSortableNumber]. *)
Definition months : list (jsstring * Z) :=
  [ (lit "Jan", 1); (lit "Feb", 2); (lit "Mar", 3); (lit "Apr", 4);
    (lit "May", 5); (lit "Jun", 6); (lit "Jul", 7); (lit "Aug", 8);
    (lit "Sep", 9); (lit "Oct", 10); (lit "Nov", 11); (lit "Dec", 12) ].

(** [months] is an object literal, so besides its twelve entries a lookup
    finds what every object inherits from [Object.prototype]. *)
Definition object_prototype_names : list jsstring :=
  [ lit "constructor"; lit "hasOwnProperty"; lit "isPrototypeOf";
    lit "propertyIsEnumerable"; lit "toLocaleString"; lit "toString";
    lit "valueOf"; lit "__proto__"; lit "__defineGetter__";
    lit "__defineSetter__"; lit "__lookupGetter__"; lit "__lookupSetter__" ].

Fixpoint assoc {V : Type} (key : jsstring) (l : list (jsstring * V))
  : option V :=
  match l with
  | [] => None
  | (k, v) :: l' => if JsString.eqb k key then Some v else assoc key l'
  end.

(** [months[name] || 0], as the number that [month * 100] then computes
    with: a month of the table, 0 for a name that is not found, and NaN
    for an inherited member (a function or object, truthy, not a
    number). *)
Definition month_or_zero (name : jsstring) : number :=
  match assoc name months with
  | Some m => Int m
  | None =>
      if bool_decide (name ∈ object_prototype_names) then NaN else Int 0
  end.

(** [dateToSortableNumber(dateStr)]. The argument is what the caller read
    from a record, so any value: a falsy one gives 0, a string is taken
    apart, and a truthy value that is not a string has no [split] method. *)
Definition dateToSortableNumber (dateStr : JsVal) : completion number :=
  if negb (truthy dateStr) then mret (Int 0)
  else
    match dateStr with
    | JStr s =>
        match JsString.split 32 s with
        | [_; dayMonthStr] =>
            match JsString.split 45 dayMonthStr with
            | [dayStr; monthStr] =>
                let day := num_or_zero (parseInt (JStr dayStr)) in
                let month := month_or_zero monthStr in
                mret (num_add (num_mul month (Int 100)) (Int day))
            | _ => mret (Int 0)
            end
        | _ => mret (Int 0)
        end
    | _ => Throw
    end.

(** The [replacements] table of [romanianSortKey] as the loop uses it:
    both the character and its replacement lower-cased. The characters
    are U+0103/U+0102, U+00E2/U+00C2, U+00EE/U+00CE, U+0219/U+0218 and
    U+021B/U+021A; each upper-case entry lower-cases to the entry before
    it. *)
Definition replacements : list (N * jsstring) :=
  [ (259%N, lit "a~1"); (259%N, lit "a~1");
    (226%N, lit "a~2"); (226%N, lit "a~2");
    (238%N, lit "i~1"); (238%N, lit "i~1");
    (537%N, lit "s~1"); (537%N, lit "s~1");
    (539%N, lit "t~1"); (539%N, lit "t~1") ].

Section Competitions.
Context `{Runtime}.

(** [romanianSortKey(text)]. *)
Definition romanianSortKey (text : jsstring) : jsstring :=
  if JsString.eqb text [] then []
  else
    fold_left (fun result '(c, r) => JsString.replaceAll c r result)
              replacements (toLowerCase text).

(** The comparator that [sortCompetitions] hands to the sort. *)
Definition compareCompetitions (column : jsstring) (ascending : bool)
    (a b : record) : completion number :=
  let valA := or_else (get a column) (JStr []) in
  let valB := or_else (get b column) (JStr []) in
  if JsString.eqb column (lit "id") then
    let idA := num_or_zero (parseInt valA) in
    let idB := num_or_zero (parseInt valB) in
    mret (Int (if ascending then idA - idB else idB - idA))
  else if JsString.startsWith (lit "year_") column then
    dateA ← dateToSortableNumber valA;
    dateB ← dateToSortableNumber valB;
    if num_is_zero dateA && num_is_zero dateB then mret (Int 0)
    else if num_is_zero dateA then mret (Int 1)
    else if num_is_zero dateB then mret (Int (-1))
    else mret (if ascending then num_sub dateA dateB
               else num_sub dateB dateA)
  else
    let keyA := romanianSortKey (toString valA) in
    let keyB := romanianSortKey (toString valB) in
    if JsString.ltb keyA keyB then
      mret (Int (if ascending then -1 else 1))
    else if JsString.ltb keyB keyA then
      mret (Int (if ascending then 1 else -1))
    else mret (Int 0).

(** [sortCompetitions(data, column, ascending)]: the contents of the
    array it returns, from the contents of [data]. [sorted] starts as the
    copy [[...data]]; [sortCompetitions_ref] below keeps track of the
    arrays themselves. *)
Definition sortCompetitions (data : list record) (column : jsstring)
    (ascending : bool) : completion (list record) :=
  let sorted := data in
  Array_sort (compareCompetitions column ascending) sorted.

End Competitions.

(** *** Sort state and the three tables *)

Record sort_state : Type := {
  column : jsstring;
  ascending : bool
}.

(** The head of [sortTable1], [sortTable2] and [sortTable3]: the same
    column flips the direction, another column starts ascending. *)
Definition select_column (st : sort_state) (col : jsstring) : sort_state :=
  if JsString.eqb (column st) col then
    {| column := column st; ascending := negb (ascending st) |}
  else
    {| column := col; ascending := true |}.

(** A table cell and a table row as the renderer leaves them in a
    [tbody]. *)
Record cell : Type := {
  colSpan : nat;
  className : jsstring;
  textContent : jsstring
}.
Abbreviation row := (list cell).

(** What assigning [v] to [textContent] shows. *)
Definition text_of (v : JsVal) : jsstring :=
  match v with
  | JUndefined | JNull => []
  | _ => toString v
  end.

(** A cell made with [createElement('td')] and [textContent = v || '']. *)
Definition td (r : record) (key : jsstring) : cell :=
  {| colSpan := 1; className := [];
     textContent := text_of (or_else (get r key) (JStr [])) |}.

(** The row parsed from
    [<tr><td colspan="n" class="text-center">No competitions found</td></tr>]. *)
Definition no_competitions_row (n : nat) : row :=
  [ {| colSpan := n; className := lit "text-center";
       textContent := lit "No competitions found" |} ].

Definition year_keys : list jsstring :=
  [ lit "year_2026"; lit "year_2025"; lit "year_2024"; lit "year_2023" ].

Definition table1_row (competition : record) : row :=
  [ td competition (lit "id"); td competition (lit "name");
    td competition (lit "location"); td competition (lit "county") ]
  ++ map (td competition) year_keys.

Definition table2_row (competition : record) : row :=
  [ td competition (lit "name"); td competition (lit "location") ]
  ++ map (td competition) year_keys.

Definition table3_row (competition : record) : row :=
  [ td competition (lit "name") ] ++ map (td competition) year_keys.

(** The body shared by the three [populateTable] functions. [tableBody]
    is the rows of the [tbody] element, [None] when the page has no such
    element; [competitions] is [None] for a missing (undefined or null)
    argument. The result is the element's rows afterwards. *)
Definition populate (colspan : nat) (render : record -> row)
    (tableBody : option (list row)) (competitions : option (list record))
    : option (list row) :=
  match tableBody with
  | None => None
  | Some _ =>
      match competitions with
      | None | Some [] => Some [no_competitions_row colspan]
      | Some cs => Some (map render cs)
      end
  end.

Definition populateTable1 := populate 8 table1_row.
Definition populateTable2 := populate 6 table2_row.
Definition populateTable3 := populate 5 table3_row.

(** The globals of the all-competitions page and its three [tbody]
    elements. The header icons that [updateSortIcons] repaints are not
    part of the model. *)
Record page : Type := {
  competitionsData : list record;
  moldovaCompetitionsData : list record;
  otherCompetitionsData : list record;
  sortState_table1 : sort_state;
  sortState_table2 : sort_state;
  sortState_table3 : sort_state;
  table_body_1 : option (list row);
  table_body_2 : option (list row);
  table_body_3 : option (list row)
}.

Definition initial_sort_state : sort_state :=
  {| column := lit "name"; ascending := true |}.

Section SortTables.
Context `{Runtime}.

(** [sortTable1(column)]: the page afterwards, and whether the handler
    returned or threw. The state is toggled before the sort runs, so it
    stays toggled when the sort throws. *)
Definition sortTable1 (p : page) (col : jsstring)
  : page * completion unit :=
  let st := select_column (sortState_table1 p) col in
  match sortCompetitions (competitionsData p) col (ascending st) with
  | Return sorted =>
      ({| competitionsData := competitionsData p;
          moldovaCompetitionsData := moldovaCompetitionsData p;
          otherCompetitionsData := otherCompetitionsData p;
          sortState_table1 := st;
          sortState_table2 := sortState_table2 p;
          sortState_table3 := sortState_table3 p;
          table_body_1 := populateTable1 (table_body_1 p) (Some sorted);
          table_body_2 := table_body_2 p;
          table_body_3 := table_body_3 p |}, Return tt)
  | Throw =>
      ({| competitionsData := competitionsData p;
          moldovaCompetitionsData := moldovaCompetitionsData p;
          otherCompetitionsData := otherCompetitionsData p;
          sortState_table1 := st;
          sortState_table2 := sortState_table2 p;
          sortState_table3 := sortState_table3 p;
          table_body_1 := table_body_1 p;
          table_body_2 := table_body_2 p;
          table_body_3 := table_body_3 p |}, Throw)
  end.

Definition sortTable2 (p : page) (col : jsstring)
  : page * completion unit :=
  let st := select_column (sortState_table2 p) col in
  match sortCompetitions (moldovaCompetitionsData p) col (ascending st) with
  | Return sorted =>
      ({| competitionsData := competitionsData p;
          moldovaCompetitionsData := moldovaCompetitionsData p;
          otherCompetitionsData := otherCompetitionsData p;
          sortState_table1 := sortState_table1 p;
          sortState_table2 := st;
          sortState_table3 := sortState_table3 p;
          table_body_1 := table_body_1 p;
          table_body_2 := populateTable2 (table_body_2 p) (Some sorted);
          table_body_3 := table_body_3 p |}, Return tt)
  | Throw =>
      ({| competitionsData := competitionsData p;
          moldovaCompetitionsData := moldovaCompetitionsData p;
          otherCompetitionsData := otherCompetitionsData p;
          sortState_table1 := sortState_table1 p;
          sortState_table2 := st;
          sortState_table3 := sortState_table3 p;
          table_body_1 := table_body_1 p;
          table_body_2 := table_body_2 p;
          table_body_3 := table_body_3 p |}, Throw)
  end.

Definition sortTable3 (p : page) (col : jsstring)
  : page * completion unit :=
  let st := select_column (sortState_table3 p) col in
  match sortCompetitions (otherCompetitionsData p) col (ascending st) with
  | Return sorted =>
      ({| competitionsData := competitionsData p;
          moldovaCompetitionsData := moldovaCompetitionsData p;
          otherCompetitionsData := otherCompetitionsData p;
          sortState_table1 := sortState_table1 p;
          sortState_table2 := sortState_table2 p;
          sortState_table3 := st;
          table_body_1 := table_body_1 p;
          table_body_2 := table_body_2 p;
          table_body_3 := populateTable3 (table_body_3 p) (Some sorted) |},
       Return tt)
  | Throw =>
      ({| competitionsData := competitionsData p;
          moldovaCompetitionsData := moldovaCompetitionsData p;
          otherCompetitionsData := otherCompetitionsData p;
          sortState_table1 := sortState_table1 p;
          sortState_table2 := sortState_table2 p;
          sortState_table3 := st;
          table_body_1 := table_body_1 p;
          table_body_2 := table_body_2 p;
          table_body_3 := table_body_3 p |}, Throw)
  end.

End SortTables.

(** ** Home page: the build badge *)

(** A [{year, month, day}] object of the JSON documents. *)
Record date_obj : Type := {
  year : Z;
  month : Z;
  day : Z
}.

Record version : Type := {
  version_id : JsVal;
  date : date_obj
}.

(** [names[i]] in a template literal: the name, or the text of
    [undefined] outside the array. *)
Definition name_at (names : list jsstring) (i : Z) : jsstring :=
  if (0 <=? i) && (i <? Z.of_nat (length names)) then
    nth (Z.to_nat i) names []
  else lit "undefined".

Definition monthNames : list jsstring :=
  [ lit "Jan"; lit "Feb"; lit "Mar"; lit "Apr"; lit "May"; lit "Jun";
    lit "Jul"; lit "Aug"; lit "Sep"; lit "Oct"; lit "Nov"; lit "Dec" ].

(** The callback of the [reduce] in [loadLastUpdateDate]. *)
Definition later_version (max current : version) : version :=
  let currentId := parseInt (version_id current) in
  let maxId := parseInt (version_id max) in
  if num_gtb currentId maxId then current else max.

(** [data.versions.reduce(callback)] without an initial value: the first
    entry starts as the maximum; an empty array throws. *)
Definition latestVersion (versions : list version) : completion version :=
  match versions with
  | [] => Throw
  | first :: rest => mret (fold_left later_version rest first)
  end.

(** The two badges: the text of each element, [None] for an element the
    page does not have. *)
Record badges : Type := {
  last_update_date : option jsstring;
  version_number : option jsstring
}.

(** What the [fetch] of [versions.json] came to. *)
Inductive fetched (A : Type) : Type :=
  | FetchFailed
  | ResponseNotOk
  | ResponseOk (data : A).
Arguments FetchFailed {A}.
Arguments ResponseNotOk {A}.
Arguments ResponseOk {A} data.

Section Badge.
Context `{Runtime}.

(** The [DD-Mon-YYYY] text built from a version's date. *)
Definition formattedDate (d : date_obj) : jsstring :=
  let date := newDate (year d) (month d - 1) (day d) in
  let day := JsString.padStart 2 48%N (int_toString (getDate date)) in
  let month := name_at monthNames (getMonth date) in
  let year := int_toString (getFullYear date) in
  day ++ lit "-" ++ month ++ lit "-" ++ year.

(** The unguarded assignments of ['N/A']: the first missing element
    throws, out of the handler. *)
Definition show_not_available (b : badges) : badges * completion unit :=
  match last_update_date b with
  | None => (b, Throw)
  | Some _ =>
      let b1 := {| last_update_date := Some (lit "N/A");
                   version_number := version_number b |} in
      match version_number b with
      | None => (b1, Throw)
      | Some _ =>
          ({| last_update_date := Some (lit "N/A");
              version_number := Some (lit "N/A") |}, Return tt)
      end
  end.

(** [loadLastUpdateDate()], from the outcome of its fetch and the
    badges before it. *)
Definition loadLastUpdateDate (response : fetched (list version))
    (b : badges) : badges * completion unit :=
  match response with
  | ResponseOk versions =>
      match latestVersion versions with
      | Return latest =>
          ({| last_update_date :=
                match last_update_date b with
                | Some _ => Some (formattedDate (date latest))
                | None => None
                end;
              version_number :=
                match version_number b with
                | Some _ => Some (text_of (version_id latest))
                | None => None
                end |}, Return tt)
      | Throw => show_not_available b
      end
  | ResponseNotOk => show_not_available b
  | FetchFailed => show_not_available b
  end.

End Badge.

(** ** Statistics page: the chart data adapter *)

(** [jsonData["statistics"]]: five maps keyed by the year. *)
Record statistics : Type := {
  total_competitions : gmap jsstring JsVal;
  competitions_by_month : gmap jsstring (list JsVal);
  competitions_by_type : gmap jsstring (gmap jsstring JsVal);
  competitions_by_county : gmap jsstring (gmap jsstring JsVal);
  competitions_by_towns : gmap jsstring (gmap jsstring JsVal)
}.

(** The map keys of the county series with the county code each is read
    from, in the order of the array literal. Both branches of
    [update_charts_by_year] list the same keys in the same order. *)
Definition county_keys : list (jsstring * jsstring) :=
  [ (lit "ro-ab", lit "AB"); (lit "ro-ar", lit "AR"); (lit "ro-ag", lit "AG");
    (lit "ro-bi", lit "B"); (lit "ro-bc", lit "BC"); (lit "ro-bh", lit "BH");
    (lit "ro-bn", lit "BN"); (lit "ro-bt", lit "BT"); (lit "ro-br", lit "BR");
    (lit "ro-bv", lit "BV"); (lit "ro-bz", lit "BZ"); (lit "ro-cl", lit "CL");
    (lit "ro-cs", lit "CS"); (lit "ro-cj", lit "CJ"); (lit "ro-ct", lit "CT");
    (lit "ro-cv", lit "CV"); (lit "ro-db", lit "DB"); (lit "ro-dj", lit "DJ");
    (lit "ro-gl", lit "GL"); (lit "ro-gr", lit "GR"); (lit "ro-gj", lit "GJ");
    (lit "ro-hr", lit "HR"); (lit "ro-hd", lit "HD"); (lit "ro-il", lit "IL");
    (lit "ro-is", lit "IS"); (lit "ro-if", lit "IF"); (lit "ro-mm", lit "MM");
    (lit "ro-mh", lit "MH"); (lit "ro-ms", lit "MS"); (lit "ro-nt", lit "NT");
    (lit "ro-ot", lit "OT"); (lit "ro-ph", lit "PH"); (lit "ro-sj", lit "SJ");
    (lit "ro-sm", lit "SM"); (lit "ro-sb", lit "SB"); (lit "ro-sv", lit "SV");
    (lit "ro-tr", lit "TR"); (lit "ro-tm", lit "TM"); (lit "ro-tl", lit "TL");
    (lit "ro-vl", lit "VL"); (lit "ro-vs", lit "VS"); (lit "ro-vn", lit "VN") ].

(** The arguments of the five [draw_highcharts_*] calls. *)
Record charts : Type := {
  chart_total : JsVal;
  chart_months : list JsVal;
  chart_type : gmap jsstring JsVal;
  chart_county : list (jsstring * JsVal);
  chart_towns : gmap jsstring JsVal
}.

(** The globals kept for a redraw, the year shown in the dropdown, and
    the charts last drawn. *)
Record stats_page : Type := {
  currentYear : Z;
  currentJsonData : option statistics;
  text_year : jsstring;
  drawn : option charts
}.

(** The five views [update_charts_by_year] extracts for a year. *)
Definition charts_by_year (jsonData : statistics) (year : Z) : charts :=
  let key := int_toString year in
  {| chart_total :=
       or_else (default JUndefined (total_competitions jsonData !! key))
               (JNum 0);
     chart_months :=
       match competitions_by_month jsonData !! key with
       | Some by_month => by_month
       | None => repeat (JNum 0) 12
       end;
     chart_type :=
       match competitions_by_type jsonData !! key with
       | Some by_type => by_type
       | None =>
           {[ lit "trail" := JNum 0; lit "road" := JNum 0;
              lit "other" := JNum 0 ]}
       end;
     chart_county :=
       match competitions_by_county jsonData !! key with
       | Some by_county =>
           map (fun '(hc_key, code) => (hc_key, get by_county code))
               county_keys
       | None => map (fun '(hc_key, _) => (hc_key, JNum 0)) county_keys
       end;
     chart_towns :=
       match competitions_by_towns jsonData !! key with
       | Some by_towns => by_towns
       | None => ∅
       end |}.

(** [update_charts_by_year(jsonData, year)]. *)
Definition update_charts_by_year (jsonData : statistics) (year : Z)
    (p : stats_page) : stats_page :=
  {| currentYear := year;
     currentJsonData := Some jsonData;
     text_year := int_toString year;
     drawn := Some (charts_by_year jsonData year) |}.

(** The [themeChanged] listener: redraw from the retained pair. *)
Definition on_themeChanged (p : stats_page) : stats_page :=
  match currentJsonData p with
  | Some jsonData =>
      if currentYear p =? 0 then p
      else update_charts_by_year jsonData (currentYear p) p
  | None => p
  end.

(** ** Arrays by reference *)

(** An array is a reference into a store; what a function does to the
    array behind a reference is seen by everyone holding it. *)
Section Store.
Context {A : Type}.

(** [[...a]]: a new array holding the elements of [a]. *)
Definition spread (h : gmap nat (list A)) (a : nat)
  : completion (gmap nat (list A) * nat) :=
  match h !! a with
  | Some elems =>
      let copy := fresh (dom h) in
      mret (<[copy := elems]> h, copy)
  | None => Throw
  end.

(** [a.sort(comparefn)]: orders the array behind [a] itself and returns
    [a]. *)
Definition sort_in_place (comparefn : A -> A -> completion number)
    (h : gmap nat (list A)) (a : nat)
  : completion (gmap nat (list A) * nat) :=
  match h !! a with
  | Some elems =>
      sorted ← Array_sort comparefn elems;
      mret (<[a := sorted]> h, a)
  | None => Throw
  end.
End Store.

Section CompetitionsByReference.
Context `{Runtime}.

(** [sortCompetitions(data, column, ascending)] on references: the copy
    made by [const sorted = [...data]] is sorted and returned. *)
Definition sortCompetitions_ref (h : gmap nat (list record)) (data : nat)
    (column : jsstring) (ascending : bool)
  : completion (gmap nat (list record) * nat) :=
  '(h1, sorted) ← spread h data;
  '(h2, _) ← sort_in_place (compareCompetitions column ascending) h1 sorted;
  mret (h2, sorted).
End CompetitionsByReference.

(** ** Bad-news page *)

Record news : Type := {
  original_date : date_obj;
  competition : jsstring;
  status : jsstring;
  new_date : option date_obj
}.

(** A rendered row: the struck-through original date, the competition
    with or without strike-through, and the status cell's content. *)
Record news_row : Type := {
  row_original_date : jsstring;
  row_competition : jsstring;
  row_competition_struck : bool;
  row_status : jsstring
}.

Definition dayNames : list jsstring :=
  [ lit "Sun"; lit "Mon"; lit "Tue"; lit "Wed"; lit "Thu"; lit "Fri";
    lit "Sat" ].

(** [dateToNumber(dateObj)], exact as long as the year keeps the sum
    below 2^53. *)
Definition dateToNumber (dateObj : date_obj) : Z :=
  year dateObj * 10000 + month dateObj * 100 + day dateObj.

(** The comparator of [update_bad_news_table]: latest original date
    first. *)
Definition compareNews (a b : news) : completion number :=
  mret (Int (dateToNumber (original_date b) - dateToNumber (original_date a))).

Section BadNews.
Context `{Runtime}.

(** [formatDate(dateObj)]. *)
Definition formatDate (dateObj : date_obj) : jsstring :=
  let date := newDate (year dateObj) (month dateObj - 1) (day dateObj) in
  let dayName := name_at dayNames (getDay date) in
  let monthName := name_at monthNames (month dateObj - 1) in
  dayName ++ lit " " ++ int_toString (day dateObj) ++ lit "-"
    ++ monthName ++ lit "-" ++ int_toString (year dateObj).

(** [createBadNewsRow(news)]. *)
Definition createBadNewsRow (n : news) : news_row :=
  let rescheduled := JsString.eqb (status n) (lit "Rescheduled") in
  {| row_original_date := formatDate (original_date n);
     row_competition := competition n;
     row_competition_struck := negb rescheduled;
     row_status :=
       match new_date n with
       | Some d =>
           if rescheduled then
             status n ++ lit " <strong>(" ++ formatDate d
               ++ lit ")</strong>"
           else status n
       | None => status n
       end |}.

(** [update_bad_news_table(jsonData)]: [bad_news] is the reference held
    in [jsonData.bad_news], [table] the rows of the table element
    ([None] when the page has none). The result is the store and the
    element afterwards. *)
Definition update_bad_news_table (h : gmap nat (list news))
    (bad_news : nat) (table : option (list news_row))
  : completion (gmap nat (list news) * option (list news_row)) :=
  '(h1, sortedNews) ← sort_in_place compareNews h bad_news;
  let newsRows := map createBadNewsRow (default [] (h1 !! sortedNews)) in
  mret (h1, match table with
            | Some _ => Some newsRows
            | None => None
            end).
End BadNews.

(** ** What the comparator reads from a record *)

(** The identifier a record is sorted by on the [id] column. *)
Definition idKey (r : record) : Z :=
  num_or_zero (parseInt (or_else (get r (lit "id")) (JStr []))).

(** The date a record is sorted by on a year column. *)
Definition dateKey (column : jsstring) (r : record) : completion number :=
  dateToSortableNumber (or_else (get r column) (JStr [])).

(** ** A reference runtime

    An instance of [Runtime] to run the scripts on examples: lower-casing
    of Basic Latin, Latin-1 and the Romanian letters, and the proleptic
    Gregorian calendar behind [Date] (local midnight, no zone changes). *)
Module ReferenceRuntime.

Definition lower_unit (c : N) : N :=
  if ((65 <=? c) && (c <=? 90))%N then (c + 32)%N
  else if ((192 <=? c) && (c <=? 222) && negb (c =? 215))%N then (c + 32)%N
  else if ((c =? 258) || (c =? 536) || (c =? 538))%N then (c + 1)%N
  else c.

Definition days_from_civil (y m d : Z) : Z :=
  let y' := if m <=? 2 then y - 1 else y in
  let era := y' / 400 in
  let yoe := y' - era * 400 in
  let doy := (153 * (if 2 <? m then m - 3 else m + 9) + 2) / 5 + d - 1 in
  let doe := yoe * 365 + yoe / 4 - yoe / 100 + doy in
  era * 146097 + doe - 719468.

Definition civil_from_days (z : Z) : Z * Z * Z :=
  let z' := z + 719468 in
  let era := z' / 146097 in
  let doe := z' - era * 146097 in
  let yoe := (doe - doe / 1460 + doe / 36524 - doe / 146096) / 365 in
  let doy := doe - (365 * yoe + yoe / 4 - yoe / 100) in
  let mp := (5 * doy + 2) / 153 in
  let d := doy - (153 * mp + 2) / 5 + 1 in
  let m := if mp <? 10 then mp + 3 else mp - 9 in
  (yoe + era * 400 + (if m <=? 2 then 1 else 0), m, d).

Definition make_date (year monthIndex day : Z) : date_value :=
  let y := if (0 <=? year) && (year <=? 99) then 1900 + year else year in
  let ym := y + monthIndex / 12 in
  let mn := monthIndex mod 12 in
  let t := days_from_civil ym (mn + 1) 1 + day - 1 in
  let '(cy, cm, cd) := civil_from_days t in
  {| getFullYear := cy; getMonth := cm - 1; getDate := cd;
     getDay := (t + 4) mod 7 |}.

Definition runtime : Runtime :=
  {| toLowerCase := map lower_unit; newDate := make_date |}.

End ReferenceRuntime.

(** ** Example data *)

Module Examples.

Definition record_of (fields : list (jsstring * JsVal)) : record :=
  list_to_map fields.

(** Two records with the same identifier. *)
Definition first_of_one : record :=
  record_of [ (lit "id", JStr (lit "1")); (lit "name", JStr (lit "a")) ].
Definition second_of_one : record :=
  record_of [ (lit "id", JStr (lit "1")); (lit "name", JStr (lit "b")) ].

(** Two records with different identifiers, one with a date in 2025
    and one without. *)
Definition dated : record :=
  record_of [ (lit "id", JNum 2); (lit "name", JStr (lit "Ana"));
                (lit "year_2025", JStr (lit "Sat 24-Jan")) ].
Definition undated : record :=
  record_of [ (lit "id", JNum 1); (lit "name", JStr (lit "Bob"));
                (lit "year_2025", JStr []) ].

(** A snapshot with no year at all. *)
Definition no_statistics : statistics :=
  {| total_competitions := ∅; competitions_by_month := ∅;
     competitions_by_type := ∅; competitions_by_county := ∅;
     competitions_by_towns := ∅ |}.

(** The county snapshot [{"2025":{"AB":3,"B":10}}]. *)
Definition two_counties : statistics :=
  {| total_competitions := ∅; competitions_by_month := ∅;
     competitions_by_type := ∅;
     competitions_by_county :=
       {[ lit "2025" :=
            {[ lit "AB" := JNum 3; lit "B" := JNum 10 ]} ]};
     competitions_by_towns := ∅ |}.

(** The statistics page before any chart is drawn. *)
Definition blank_page : stats_page :=
  {| currentYear := 2026; currentJsonData := None; text_year := [];
     drawn := None |}.

(** Three versions, the latest in the middle. *)
Definition three_versions : list version :=
  [ {| version_id := JStr (lit "9");
       date := {| year := 2025; month := 3; day := 1 |} |};
    {| version_id := JStr (lit "12");
       date := {| year := 2026; month := 1; day := 24 |} |};
    {| version_id := JStr (lit "10");
       date := {| year := 2025; month := 6; day := 30 |} |} ].


(** Two cancelled events, the earlier one first. *)
Definition january : news :=
  {| original_date := {| year := 2025; month := 1; day := 1 |};
     competition := lit "Winter Run"; status := lit "Cancelled";
     new_date := None |}.
Definition june : news :=
  {| original_date := {| year := 2025; month := 6; day := 1 |};
     competition := lit "Summer Run"; status := lit "Cancelled";
     new_date := None |}.

(** A store whose array 0 is the fetched [bad_news]. *)
Definition fetched_news : gmap nat (list news) :=
  {[ 0%nat := [january; june] ]}.

(** A sort state after one click on the initial column. *)
Definition name_descending : sort_state :=
  {| column := lit "name"; ascending := false |}.

End Examples.

(** ** Theme switcher *)

(** What the theme functions read and write: the ['theme'] entry of
    [localStorage] ([None] when it was never set), the system's answer to
    [(prefers-color-scheme: dark)], and the [data-bs-theme] attribute of
    the document element. *)
Record theme_env : Type := {
  stored_theme : option jsstring;
  prefers_dark : bool;
  data_bs_theme : option jsstring
}.

Definition getStoredTheme (env : theme_env) : option jsstring :=
  stored_theme env.

Definition setStoredTheme (theme : jsstring) (env : theme_env) : theme_env :=
  {| stored_theme := Some theme;
     prefers_dark := prefers_dark env;
     data_bs_theme := data_bs_theme env |}.

(** [matchMedia('(prefers-color-scheme: dark)').matches ? 'dark' : 'light']. *)
Definition system_theme (env : theme_env) : jsstring :=
  if prefers_dark env then lit "dark" else lit "light".

Definition getPreferredTheme (env : theme_env) : jsstring :=
  match getStoredTheme env with
  | Some storedTheme =>
      if JsString.eqb storedTheme [] then system_theme env else storedTheme
  | None => system_theme env
  end.

Definition setTheme (theme : jsstring) (env : theme_env) : theme_env :=
  {| stored_theme := stored_theme env;
     prefers_dark := prefers_dark env;
     data_bs_theme :=
       Some (if JsString.eqb theme (lit "auto") then system_theme env
             else theme) |}.

(** The click listener of a theme button, up to the [themeChanged]
    event it dispatches. *)
Definition theme_click (theme : jsstring) (env : theme_env) : theme_env :=
  setTheme theme (setStoredTheme theme env).

(** The listener of changes of the system preference: the new answer of
    the media query, then a new theme unless ['light'] or ['dark'] is
    stored. *)
Definition system_preference_changed (dark : bool) (env : theme_env)
    : theme_env :=
  let env1 := {| stored_theme := stored_theme env;
                 prefers_dark := dark;
                 data_bs_theme := data_bs_theme env |} in
  if bool_decide (getStoredTheme env1 = Some (lit "light"))
     || bool_decide (getStoredTheme env1 = Some (lit "dark"))
  then env1
  else setTheme (getPreferredTheme env1) env1.

(** The statement at the top level of the script, run on every page
    load. *)
Definition theme_on_load (env : theme_env) : theme_env :=
  setTheme (getPreferredTheme env) env.

Record theme_colors : Type := {
  backgroundColor : jsstring;
  textColor : jsstring;
  gridColor : jsstring;
  nullColor : jsstring;
  tooltipBackground : jsstring;
  tooltipBorder : jsstring
}.

Definition getThemeColors (env : theme_env) : theme_colors :=
  let isDark := bool_decide (data_bs_theme env = Some (lit "dark")) in
  {| backgroundColor := if isDark then lit "#212529" else lit "#ffffff";
     textColor := if isDark then lit "#dee2e6" else lit "#333333";
     gridColor := if isDark then lit "#495057" else lit "#e6e6e6";
     nullColor := if isDark then lit "#343a40" else lit "#E0E0E0";
     tooltipBackground := if isDark then lit "#343a40" else lit "#ffffff";
     tooltipBorder := if isDark then lit "#6c757d" else lit "#cccccc" |}.

(** ** Navigation bar *)

(** [getCurrentPage()], from [window.location.pathname]. *)
Definition getCurrentPage (pathname : jsstring) : jsstring :=
  let page := default [] (last (JsString.split 47 pathname)) in
  if JsString.eqb page [] then lit "index.html" else page.

(** An entry of [pages.json]. *)
Record nav_page : Type := {
  page_name : JsVal;
  page_link : JsVal
}.

(** A rendered navigation item: whether it carries the [active] class and
    [aria-current="page"], its [href] and its label. *)
Record nav_item : Type := {
  nav_active : bool;
  nav_href : jsstring;
  nav_label : jsstring
}.

Definition createNavLink (page : nav_page) (isActive : bool) : nav_item :=
  {| nav_active := isActive;
     nav_href := toString (page_link page);
     nav_label := toString (page_name page) |}.

(** The [navLinks] of [initializeNavbar]. *)
Definition navLinks (pages : list nav_page) (currentPage : jsstring)
    : list nav_item :=
  map (fun page =>
         createNavLink page
           (bool_decide (page_link page = JStr currentPage)))
      pages.

(** [fetch_json_file(file_path)], from what the fetch came to. *)
Definition fetch_json_file {A : Type} (response : fetched A) : completion A :=
  match response with
  | ResponseOk data => Return data
  | ResponseNotOk => Throw
  | FetchFailed => Throw
  end.

(** [initializeNavbar()] on the navigation container ([None] when the
    page has none); the theme switcher it then inserts is fixed markup. *)
Definition initializeNavbar (response : fetched (list nav_page))
    (pathname : jsstring) (navContainer : option (list nav_item))
    : option (list nav_item) :=
  match fetch_json_file response with
  | Return pages =>
      match navContainer with
      | Some _ => Some (navLinks pages (getCurrentPage pathname))
      | None => None
      end
  | Throw => navContainer
  end.

(** ** Statistics page: loading a year *)

(** [statistics_main(year)] once its fetch has settled: a failure is
    logged and changes nothing. *)
Definition statistics_main (response : fetched statistics) (year : Z)
    (p : stats_page) : stats_page :=
  match fetch_json_file response with
  | Return jsonData => update_charts_by_year jsonData year p
  | Throw => p
  end.

(** [change_data(year)]: the label is set at once, the charts follow
    when the fetch started by [statistics_main] settles. *)
Definition change_data (response : fetched statistics) (year : Z)
    (p : stats_page) : stats_page :=
  statistics_main response year
    {| currentYear := currentYear p;
       currentJsonData := currentJsonData p;
       text_year := int_toString year;
       drawn := drawn p |}.

(** ** Home page: the competitions table of a year *)

(** A competition of a per-year document. *)
Record event : Type := {
  ev_display_date : JsVal;
  ev_name : JsVal;
  ev_link : JsVal;
  ev_link_fb : JsVal;
  ev_location : JsVal;
  ev_location_details : JsVal;
  ev_county : JsVal;
  ev_type : JsVal;
  ev_month : JsVal;
  ev_distances : option (list JsVal)
}.

(** A rendered [<tr>]: whether it has the [last-of-month] class, its
    [data-month] attribute, the markup of its five cells, and the items
    of the distances cell when the table has one. *)
Record event_row : Type := {
  last_of_month : bool;
  data_month : jsstring;
  date_cell : jsstring;
  name_cell : jsstring;
  location_cell : jsstring;
  county_cell : jsstring;
  type_cell : jsstring;
  distances_cell : option (list jsstring)
}.

(** The rendered table: its [id], whether it has the Distances header,
    and its rows. *)
Record events_table : Type := {
  table_id : jsstring;
  distances_header : bool;
  table_rows : list event_row
}.

(** The name cell: a link, followed by a Facebook link when [link_fb]
    is there, in the full version; the bare name otherwise. *)
Definition competitionNameCell (showFullVersion : bool) (c : event)
    : jsstring :=
  if showFullVersion then
    (lit "<a href=" ++ [34%N] ++ toString (ev_link c) ++ [34%N]
       ++ lit " target=" ++ [34%N] ++ lit "_blank" ++ [34%N] ++ lit ">"
       ++ toString (ev_name c) ++ lit "</a>")
    ++ (if truthy (ev_link_fb c) then
          lit " <a href=" ++ [34%N] ++ toString (ev_link_fb c) ++ [34%N]
            ++ lit " target=" ++ [34%N] ++ lit "_blank" ++ [34%N]
            ++ lit " title=" ++ [34%N] ++ lit "Facebook Page" ++ [34%N]
            ++ lit "><i class=" ++ [34%N] ++ lit "bi bi-facebook" ++ [34%N]
            ++ lit "></i></a>"
        else [])
  else toString (ev_name c).

Definition locationCell (c : event) : jsstring :=
  if truthy (ev_location_details c) then
    toString (ev_location c) ++ lit "<br><small class=" ++ [34%N]
      ++ lit "text-muted" ++ [34%N] ++ lit ">"
      ++ toString (ev_location_details c) ++ lit "</small>"
  else toString (ev_location c).

(** The body of the [forEach] callback; [next] is the competition after
    this one, if any. Without a [distances] array the full version
    throws. *)
Definition render_event (showFullVersion : bool) (c : event)
    (next : option event) : completion event_row :=
  let isLastOfMonth :=
    match next with
    | Some n => negb (bool_decide (ev_month c = ev_month n))
    | None => false
    end in
  distancesCell ←
    (if showFullVersion then
       match ev_distances c with
       | Some ds => mret (Some (map toString ds))
       | None => Throw
       end
     else mret None);
  mret {| last_of_month := isLastOfMonth;
          data_month := toString (ev_month c);
          date_cell := toString (ev_display_date c);
          name_cell := competitionNameCell showFullVersion c;
          location_cell := locationCell c;
          county_cell := toString (ev_county c);
          type_cell := toString (ev_type c);
          distances_cell := distancesCell |}.

Fixpoint render_events (showFullVersion : bool) (competitions : list event)
    : completion (list event_row) :=
  match competitions with
  | [] => mret []
  | c :: rest =>
      r ← render_event showFullVersion c (head rest);
      rs ← render_events showFullVersion rest;
      mret (r :: rs)
  end.

(** [renderCompetitionsTable(competitions, year)]; [currentYear] is
    [new Date().getFullYear()]. *)
Definition renderCompetitionsTable (competitions : list event) (year : Z)
    (currentYear : Z) : completion events_table :=
  let showFullVersion := currentYear - 1 <=? year in
  rows ← render_events showFullVersion competitions;
  mret {| table_id := lit "competitions_" ++ int_toString year;
          distances_header := showFullVersion;
          table_rows := rows |}.

(** What [loadCompetitionsForYear] leaves in the container. *)
Inductive container_content : Type :=
  | CompetitionsTable (t : events_table)
  | BeingPrepared (year : jsstring)
  | UnableToLoad (year : jsstring).

(** [loadCompetitionsForYear(year)], from the outcome of its fetch;
    [container] is [None] when the page has no container, and then
    every assignment to it throws. The scroll to the current month,
    scheduled afterwards, is not part of the model. *)
Definition loadCompetitionsForYear (response : fetched (list event))
    (year : Z) (currentYear : Z) (container : option container_content)
    : option container_content * completion unit :=
  match container with
  | None => (None, Throw)
  | Some _ =>
      match response with
      | ResponseOk competitions =>
          match renderCompetitionsTable competitions year currentYear with
          | Return t => (Some (CompetitionsTable t), Return tt)
          | Throw => (Some (UnableToLoad (int_toString year)), Return tt)
          end
      | ResponseNotOk => (Some (BeingPrepared (int_toString year)), Return tt)
      | FetchFailed => (Some (UnableToLoad (int_toString year)), Return tt)
      end
  end.

(** ** All-competitions page: loading and clicking *)

(** The all-competitions document: each of its three lists may be
    missing. *)
Record competitions_document : Type := {
  doc_competitions : option (list record);
  doc_competitions_moldova : option (list record);
  doc_competitions_other : option (list record)
}.

(** The text of the three count elements, [None] for one the page does
    not have. *)
Record counters : Type := {
  competition_count_1 : option jsstring;
  competition_count_2 : option jsstring;
  competition_count_3 : option jsstring
}.

Definition count_text (n : nat) : jsstring :=
  lit "Total: " ++ int_toString (Z.of_nat n) ++ lit " competitions".

(** The row parsed from [<tr><td colspan="n" class="text-center
    text-danger">Error loading competitions data</td></tr>]. *)
Definition error_row (n : nat) : row :=
  [ {| colSpan := n; className := lit "text-center text-danger";
       textContent := lit "Error loading competitions data" |} ].

Definition show_count (element : option jsstring) (n : nat)
    : option jsstring :=
  match element with
  | Some _ => Some (count_text n)
  | None => None
  end.

Definition show_error (n : nat) (tableBody : option (list row))
    : option (list row) :=
  match tableBody with
  | Some _ => Some [error_row n]
  | None => None
  end.

Section LoadAll.
Context `{Runtime}.

(** [loadAllCompetitions()], from the outcome of its fetch. The three
    globals are assigned before the sorts run; whatever is thrown after
    that is caught and shown as an error row in each table. *)
Definition loadAllCompetitions (response : fetched competitions_document)
    (p : page) (c : counters) : page * counters :=
  match fetch_json_file response with
  | Return data =>
      let data1 := default [] (doc_competitions data) in
      let data2 := default [] (doc_competitions_moldova data) in
      let data3 := default [] (doc_competitions_other data) in
      match
        (sorted1 ← sortCompetitions data1 (lit "name") true;
         sorted2 ← sortCompetitions data2 (lit "name") true;
         sorted3 ← sortCompetitions data3 (lit "name") true;
         mret (sorted1, sorted2, sorted3))
      with
      | Return (sorted1, sorted2, sorted3) =>
          ({| competitionsData := data1;
              moldovaCompetitionsData := data2;
              otherCompetitionsData := data3;
              sortState_table1 := sortState_table1 p;
              sortState_table2 := sortState_table2 p;
              sortState_table3 := sortState_table3 p;
              table_body_1 := populateTable1 (table_body_1 p) (Some sorted1);
              table_body_2 := populateTable2 (table_body_2 p) (Some sorted2);
              table_body_3 := populateTable3 (table_body_3 p) (Some sorted3) |},
           {| competition_count_1 :=
                show_count (competition_count_1 c) (length data1);
              competition_count_2 :=
                show_count (competition_count_2 c) (length data2);
              competition_count_3 :=
                show_count (competition_count_3 c) (length data3) |})
      | Throw =>
          ({| competitionsData := data1;
              moldovaCompetitionsData := data2;
              otherCompetitionsData := data3;
              sortState_table1 := sortState_table1 p;
              sortState_table2 := sortState_table2 p;
              sortState_table3 := sortState_table3 p;
              table_body_1 := show_error 8 (table_body_1 p);
              table_body_2 := show_error 6 (table_body_2 p);
              table_body_3 := show_error 5 (table_body_3 p) |}, c)
      end
  | Throw =>
      ({| competitionsData := competitionsData p;
          moldovaCompetitionsData := moldovaCompetitionsData p;
          otherCompetitionsData := otherCompetitionsData p;
          sortState_table1 := sortState_table1 p;
          sortState_table2 := sortState_table2 p;
          sortState_table3 := sortState_table3 p;
          table_body_1 := show_error 8 (table_body_1 p);
          table_body_2 := show_error 6 (table_body_2 p);
          table_body_3 := show_error 5 (table_body_3 p) |}, c)
  end.

(** The tables of the page. *)
Inductive table : Type := Table1 | Table2 | Table3.

(** The click listeners that [initializeSortButtons] puts on the
    headers: a click on a header of a table, with its [data-column]. *)
Definition header_click (p : page) (click : table * jsstring)
    : page * completion unit :=
  match click.1 with
  | Table1 => sortTable1 p click.2
  | Table2 => sortTable2 p click.2
  | Table3 => sortTable3 p click.2
  end.

(** A series of clicks, each handled on the page the one before left. *)
Definition header_clicks (p : page) (clicks : list (table * jsstring))
    : page :=
  fold_left (fun p click => (header_click p click).1) clicks p.

End LoadAll.

(** ** Vocabulary of the further properties *)

(** [-v] on numbers. *)
Definition num_opp (v : number) : number :=
  match v with
  | NaN => NaN
  | Int z => Int (- z)
  end.

(** The key a record is sorted by on a text column. *)
Definition textKey `{Runtime} (column : jsstring) (r : record) : jsstring :=
  romanianSortKey (toString (or_else (get r column) (JStr []))).

(** The date a record is sorted by on a year column, when it is a
    number, and 0 otherwise. *)
Definition dateInt (column : jsstring) (r : record) : Z :=
  match dateKey column r with
  | Return (Int z) => z
  | _ => 0
  end.

(** The text ["<dayName> <dayStr>-<monthStr>"]. *)
Definition date_token (dayName dayStr monthStr : jsstring) : jsstring :=
  dayName ++ lit " " ++ dayStr ++ lit "-" ++ monthStr.

(** The three parts hold neither the space nor the hyphen that separate
    them. *)
Definition date_parts (dayName dayStr monthStr : jsstring) : Prop :=
  (32%N ∉ dayName) /\ (32%N ∉ dayStr) /\ (32%N ∉ monthStr) /\
  (45%N ∉ dayStr) /\ (45%N ∉ monthStr).

(** The five lower-case Romanian letters with diacritics: a-breve,
    a-circumflex, i-circumflex, s-comma and t-comma. *)
Definition diacritics : list N := [259; 226; 238; 537; 539]%N.

(** What the table of [romanianSortKey] puts in the place of a code
    unit: the text of its first entry for the unit, the unit itself when
    it has none. *)
Fixpoint replacement_of (c : N) (table : list (N * jsstring)) : jsstring :=
  match table with
  | [] => [c]
  | (k, r) :: table' => if N.eqb c k then r else replacement_of c table'
  end.

(** Calendar order on [{year, month, day}] objects. *)
Definition date_before (a b : date_obj) : Prop :=
  year a < year b \/
  (year a = year b /\
   (month a < month b \/ (month a = month b /\ day a < day b))).

(** The fields of a calendar date: a month from 1 to 12 and a day from 1
    to 31. *)
Definition calendar_fields (d : date_obj) : Prop :=
  1 <= month d <= 12 /\ 1 <= day d <= 31.

(** A year for which [year * 10000 + month * 100 + day] is computed
    without rounding: with months and days of the calendar, every
    intermediate result stays below 2^53 in absolute value. *)
Definition exact_year (d : date_obj) : Prop :=
  -900000000000 <= year d <= 900000000000.

(** An integer that a JavaScript number holds exactly, and whose text
    [String] writes with all its digits. *)
Definition safe_integer (n : Z) : Prop :=
  -9007199254740992 < n < 9007199254740992.

(** The order of two records on a year column: a sentinel date only
    before sentinel dates, and two real dates in the order of the
    direction. *)
Definition date_order (column : jsstring) (ascending : bool)
    (a b : record) : Prop :=
  (dateInt column a = 0 -> dateInt column b = 0) /\
  (dateInt column a <> 0 -> dateInt column b <> 0 ->
   if ascending then dateInt column a <= dateInt column b
   else dateInt column b <= dateInt column a).

(** The record's date on the column is a number. *)
Definition numeric_date (column : jsstring) (r : record) : Prop :=
  exists z, dateKey column r = Return (Int z).

Global Instance table_eq_dec : EqDecision table.
Proof. solve_decision. Defined.

(** The columns clicked on one table, in order. *)
Definition clicks_on (t : table) (clicks : list (table * jsstring))
    : list jsstring :=
  map snd (filter (fun click => click.1 = t) clicks).

(** The sort state, the data, the body and the column count of a
    table. *)
Definition table_state (t : table) (p : page) : sort_state :=
  match t with
  | Table1 => sortState_table1 p
  | Table2 => sortState_table2 p
  | Table3 => sortState_table3 p
  end.

Definition table_data (t : table) (p : page) : list record :=
  match t with
  | Table1 => competitionsData p
  | Table2 => moldovaCompetitionsData p
  | Table3 => otherCompetitionsData p
  end.

Definition table_body (t : table) (p : page) : option (list row) :=
  match t with
  | Table1 => table_body_1 p
  | Table2 => table_body_2 p
  | Table3 => table_body_3 p
  end.

Definition table_width (t : table) : nat :=
  match t with
  | Table1 => 8
  | Table2 => 6
  | Table3 => 5
  end.

(** [out] holds the records of [data] in the order of their [name]
    keys. *)
Definition in_name_order `{Runtime} (data out : list record) : Prop :=
  data ≡ₚ out /\
  StronglySorted
    (fun a b =>
       JsString.ltb (textKey (lit "name") b) (textKey (lit "name") a) = false)
    out.

(** A year whose table has links and distances. *)
Definition full_version (year currentYear : Z) : Prop :=
  currentYear - 1 <= year.

(** A competition without a [distances] array. *)
Definition lacks_distances (competitions : list event) : Prop :=
  exists c, c ∈ competitions /\ ev_distances c = None.

(** ** Statistics page: the colours of the charts *)

(** The statistics page with the colours its charts were last drawn
    with: each [draw_highcharts_*] function asks [getThemeColors()] when
    it draws, so the charts keep those colours until the next draw. *)
Record chart_view : Type := {
  view_page : stats_page;
  view_colors : option theme_colors
}.

(** [update_charts_by_year(jsonData, year)] under the theme of [env]. *)
Definition draw_charts (env : theme_env) (jsonData : statistics) (year : Z)
    (v : chart_view) : chart_view :=
  {| view_page := update_charts_by_year jsonData year (view_page v);
     view_colors := Some (getThemeColors env) |}.

(** The [themeChanged] listener of the statistics page under the theme
    of [env]. *)
Definition redraw_on_themeChanged (env : theme_env) (v : chart_view)
    : chart_view :=
  match currentJsonData (view_page v) with
  | Some jsonData =>
      if currentYear (view_page v) =? 0 then v
      else draw_charts env jsonData (currentYear (view_page v)) v
  | None => v
  end.

(** A click on a theme button of the statistics page: the click
    listener sets the theme and dispatches [themeChanged], which the
    listener of the page handles. *)
Definition theme_click_on_statistics (theme : jsstring)
    (state : theme_env * chart_view) : theme_env * chart_view :=
  let env := theme_click theme state.1 in
  (env, redraw_on_themeChanged env state.2).

(** ** More example data *)

Module MoreExamples.

(** A pages document of two pages. *)
Definition two_pages : list nav_page :=
  [ {| page_name := JStr (lit "Home");
       page_link := JStr (lit "index.html") |};
    {| page_name := JStr (lit "Park Run");
       page_link := JStr (lit "park.html") |} ].

(** The all-competitions page with two records in its first table. *)
Definition two_records_page : page :=
  {| competitionsData := [Examples.dated; Examples.undated];
     moldovaCompetitionsData := [];
     otherCompetitionsData := [];
     sortState_table1 := initial_sort_state;
     sortState_table2 := initial_sort_state;
     sortState_table3 := initial_sort_state;
     table_body_1 := Some [];
     table_body_2 := Some [];
     table_body_3 := Some [] |}.

(** A browser with nothing stored, on a dark system. *)
Definition dark_system : theme_env :=
  {| stored_theme := None; prefers_dark := true; data_bs_theme := None |}.

(** Two competitions of January and one of February, the last without
    a distances list. *)
Definition winter_run : event :=
  {| ev_display_date := JStr (lit "Sat 24-Jan");
     ev_name := JStr (lit "Winter Run");
     ev_link := JStr (lit "https://example.org/winter");
     ev_link_fb := JUndefined;
     ev_location := JStr (lit "Bucharest");
     ev_location_details := JUndefined;
     ev_county := JStr (lit "B");
     ev_type := JStr (lit "road");
     ev_month := JNum 1;
     ev_distances := Some [JStr (lit "10 km")] |}.

Definition snow_trail : event :=
  {| ev_display_date := JStr (lit "Sun 25-Jan");
     ev_name := JStr (lit "Snow Trail");
     ev_link := JStr (lit "https://example.org/snow");
     ev_link_fb := JUndefined;
     ev_location := JStr (lit "Brasov");
     ev_location_details := JUndefined;
     ev_county := JStr (lit "BV");
     ev_type := JStr (lit "trail");
     ev_month := JNum 1;
     ev_distances := Some [JStr (lit "21 km")] |}.

Definition ice_mile : event :=
  {| ev_display_date := JStr (lit "Sun 1-Feb");
     ev_name := JStr (lit "Ice Mile");
     ev_link := JStr (lit "https://example.org/ice");
     ev_link_fb := JUndefined;
     ev_location := JStr (lit "Cluj");
     ev_location_details := JUndefined;
     ev_county := JStr (lit "CJ");
     ev_type := JStr (lit "road");
     ev_month := JNum 2;
     ev_distances := None |}.

End MoreExamples.

(** ** Facts about the sort *)

Section ArraySortFacts.
Context {A : Type}.
Implicit Types (comparefn : A -> A -> completion number) (l : list A).

Lemma sort_insert_perm comparefn x l r :
  sort_insert comparefn x l = Return r -> x :: l ≡ₚ r.
Proof.
  revert r. induction l as [|y l IH]; intros r; simpl.
  - intros [= <-]. reflexivity.
  - destruct (sortCompare comparefn x y) as [c|]; simpl; [|discriminate].
    destruct (c <=? 0).
    + intros [= <-]. reflexivity.
    + destruct (sort_insert comparefn x l) as [r'|]; simpl; [|discriminate].
      intros [= <-]. rewrite Permutation_swap. f_equiv. by apply IH.
Qed.

Lemma Array_sort_perm comparefn l out :
  Array_sort comparefn l = Return out -> l ≡ₚ out.
Proof.
  revert out. induction l as [|x l IH]; intros out; simpl.
  - intros [= <-]. reflexivity.
  - destruct (Array_sort comparefn l) as [s|]; simpl; [|discriminate].
    intros Hins. apply sort_insert_perm in Hins.
    rewrite <- Hins. f_equiv. by apply IH.
Qed.

Lemma sort_insert_throw comparefn x l :
  sort_insert comparefn x l = Throw ->
  exists y, y ∈ l /\ comparefn x y = Throw.
Proof.
  induction l as [|y l IH]; simpl; [discriminate|].
  unfold sortCompare at 1.
  destruct (comparefn x y) as [v|] eqn:Hxy; simpl.
  - destruct (num_or_zero v <=? 0); [discriminate|].
    destruct (sort_insert comparefn x l) as [r'|]; simpl; [discriminate|].
    intros _. destruct IH as (z & Hz & Hthrow); [done|].
    exists z. split; [by right | done].
  - intros _. exists y. split; [by left | done].
Qed.

Lemma Array_sort_throw comparefn l :
  Array_sort comparefn l = Throw ->
  exists x y, x ∈ l /\ y ∈ l /\ comparefn x y = Throw.
Proof.
  induction l as [|x l IH]; simpl; [discriminate|].
  destruct (Array_sort comparefn l) as [s|] eqn:Hs; simpl.
  - intros Hins. apply sort_insert_throw in Hins as (y & Hy & Hthrow).
    exists x, y. split; [by left|]. split; [|done].
    right. apply Array_sort_perm in Hs. by rewrite Hs.
  - intros _. destruct IH as (a & b & Ha & Hb & Hthrow); [done|].
    exists a, b. repeat split; [by right | by right | done].
Qed.

Lemma sort_insert_returns comparefn x l :
  (forall y, y ∈ l -> exists v, comparefn x y = Return v) ->
  exists r, sort_insert comparefn x l = Return r.
Proof.
  intros Htotal.
  destruct (sort_insert comparefn x l) as [r|] eqn:Hins; [by exists r|].
  apply sort_insert_throw in Hins as (y & Hy & Hthrow).
  destruct (Htotal y Hy) as [v Hv]. congruence.
Qed.

Lemma Array_sort_returns comparefn l :
  (forall x y, x ∈ l -> y ∈ l -> exists v, comparefn x y = Return v) ->
  exists out, Array_sort comparefn l = Return out.
Proof.
  intros Htotal.
  destruct (Array_sort comparefn l) as [out|] eqn:Hs; [by exists out|].
  apply Array_sort_throw in Hs as (x & y & Hx & Hy & Hthrow).
  destruct (Htotal x y Hx Hy) as [v Hv]. congruence.
Qed.

(** The output is ordered by any transitive relation that the comparator
    decides: a result at most 0 puts the first argument before the
    second, a positive one after. *)
Section Sorted.
Variable comparefn : A -> A -> completion number.
Variable R : relation A.
Hypothesis R_trans : forall x y z, R x y -> R y z -> R x z.
Hypothesis compare_R : forall x y c,
  sortCompare comparefn x y = Return c ->
  if c <=? 0 then R x y else R y x.

Lemma sort_insert_sorted x l r :
  StronglySorted R l ->
  sort_insert comparefn x l = Return r ->
  StronglySorted R r.
Proof.
  revert r. induction l as [|y l IH]; intros r Hsorted; simpl.
  - intros [= <-]. repeat constructor.
  - apply StronglySorted_cons in Hsorted as [Hall Hsorted].
    destruct (sortCompare comparefn x y) as [c|] eqn:Hc; simpl;
      [|discriminate].
    pose proof (compare_R x y c Hc) as HR.
    destruct (c <=? 0).
    + intros [= <-]. constructor; [by constructor|].
      constructor; [done|].
      rewrite Forall_forall in Hall |- *.
      intros z Hz. apply (R_trans x y z); auto.
    + destruct (sort_insert comparefn x l) as [r'|] eqn:Hins; simpl;
        [|discriminate].
      intros [= <-]. constructor; [by eapply IH|].
      apply sort_insert_perm in Hins. rewrite <- Hins.
      by constructor.
Qed.

Lemma Array_sort_sorted l out :
  Array_sort comparefn l = Return out ->
  StronglySorted R out.
Proof.
  revert out. induction l as [|x l IH]; intros out; simpl.
  - intros [= <-]. constructor.
  - destruct (Array_sort comparefn l) as [s|] eqn:Hs; simpl;
      [|discriminate].
    apply sort_insert_sorted. by apply IH.
Qed.
End Sorted.

(** Stability: elements that the comparator never puts apart (any two
    of them compare at most 0) stay in their input order. *)
Section Stable.
Variable comparefn : A -> A -> completion number.
Variable P : A -> Prop.
Context `{!forall x, Decision (P x)}.
Hypothesis compare_P : forall x y c, P x -> P y ->
  sortCompare comparefn x y = Return c -> c <= 0.

Lemma sort_insert_stable x l r :
  sort_insert comparefn x l = Return r ->
  filter P r = filter P (x :: l).
Proof.
  revert r. induction l as [|y l IH]; intros r; simpl.
  - by intros [= <-].
  - destruct (sortCompare comparefn x y) as [c|] eqn:Hc; simpl;
      [|discriminate].
    destruct (Z.leb_spec c 0) as [Hle|Hgt].
    + by intros [= <-].
    + destruct (sort_insert comparefn x l) as [r'|] eqn:Hins; simpl;
        [|discriminate].
      intros [= <-]. specialize (IH r' eq_refl).
      rewrite (filter_cons P y r'), IH, !filter_cons.
      destruct (decide (P x)) as [Hx|Hx], (decide (P y)) as [Hy|Hy];
        try done.
      pose proof (compare_P x y c Hx Hy Hc). lia.
Qed.

Lemma Array_sort_stable l out :
  Array_sort comparefn l = Return out ->
  filter P out = filter P l.
Proof.
  revert out. induction l as [|x l IH]; intros out; simpl.
  - by intros [= <-].
  - destruct (Array_sort comparefn l) as [s|] eqn:Hs; simpl;
      [|discriminate].
    intros Hins. apply sort_insert_stable in Hins.
    rewrite Hins, !filter_cons, (IH s eq_refl). done.
Qed.
End Stable.

End ArraySortFacts.

(** ** Facts about strings *)

Section SplitFacts.
Variable sep : N.
Implicit Types s : jsstring.

Lemma split_not_nil s : JsString.split sep s <> [].
Proof.
  destruct s as [|c s]; simpl; [discriminate|].
  destruct (N.eqb c sep); [discriminate|].
  destruct (JsString.split sep s); discriminate.
Qed.

Lemma split_without s : sep ∉ s -> JsString.split sep s = [s].
Proof.
  induction s as [|c s IH]; simpl; [done|].
  intros Hnotin. apply not_elem_of_cons in Hnotin as [Hne Hnotin].
  destruct (N.eqb_spec c sep) as [->|_]; [done|].
  by rewrite IH.
Qed.

Lemma split_at s1 s2 :
  sep ∉ s1 ->
  JsString.split sep (s1 ++ sep :: s2) = s1 :: JsString.split sep s2.
Proof.
  induction s1 as [|c s1 IH]; simpl.
  - by rewrite N.eqb_refl.
  - intros Hnotin. apply not_elem_of_cons in Hnotin as [Hne Hnotin].
    destruct (N.eqb_spec c sep) as [->|_]; [done|].
    by rewrite IH.
Qed.

Lemma split_length s :
  length (JsString.split sep s) = S (JsString.occurrences sep s).
Proof.
  unfold JsString.occurrences.
  induction s as [|c s IH]; simpl; [done|].
  destruct (N.eqb_spec c sep) as [->|Hne].
  - rewrite filter_cons_True by apply N.eqb_refl. simpl. by rewrite IH.
  - rewrite filter_cons_False by (by apply not_true_iff_false, N.eqb_neq).
    destruct (JsString.split sep s) as [|p ps] eqn:Hsplit;
      [by apply split_not_nil in Hsplit|].
    simpl in *. done.
Qed.

Lemma occurrences_without s : sep ∉ s -> JsString.occurrences sep s = 0%nat.
Proof.
  intros Hnotin. pose proof (split_length s) as Hlen.
  rewrite split_without in Hlen by done. simpl in Hlen. lia.
Qed.
End SplitFacts.

(** ** The date token parser *)


Lemma dateToSortableNumber_shape dayName dayMonth :
  32%N ∉ dayName -> 32%N ∉ dayMonth ->
  dateToSortableNumber (JStr (dayName ++ 32%N :: dayMonth)) =
    match JsString.split 45 dayMonth with
    | [dayStr; monthStr] =>
        Return (num_add (num_mul (month_or_zero monthStr) (Int 100))
                        (Int (num_or_zero (parseInt (JStr dayStr)))))
    | _ => Return (Int 0)
    end.
Proof.
  intros Hname HdayMonth. unfold dateToSortableNumber.
  assert (truthy (JStr (dayName ++ 32%N :: dayMonth)) = true) as ->.
  { simpl. unfold JsString.eqb. rewrite bool_decide_eq_false_2; [done|].
    by destruct dayName. }
  simpl negb. cbv iota.
  rewrite split_at by done. rewrite split_without by done. done.
Qed.




(** ** The comparator engine *)

Lemma or_else_not_string v :
  is_string (or_else v (JStr [])) = false ->
  truthy v = true /\ is_string v = false.
Proof.
  unfold or_else. by destruct (truthy v).
Qed.

Lemma dateToSortableNumber_throw v :
  dateToSortableNumber v = Throw -> is_string v = false.
Proof.
  unfold dateToSortableNumber. destruct v as [| |b|n|s]; try done.
  destruct (negb (truthy (JStr s))); [discriminate|].
  destruct (JsString.split 32 s) as [|p1 [|p2 [|p3 ps]]]; try discriminate.
  destruct (JsString.split 45 p2) as [|q1 [|q2 [|q3 qs]]]; discriminate.
Qed.

Lemma year_column_not_id column :
  JsString.startsWith (lit "year_") column = true ->
  JsString.eqb column (lit "id") = false.
Proof.
  intros Hyear. unfold JsString.eqb. apply bool_decide_eq_false_2.
  intros ->. discriminate Hyear.
Qed.

Section ComparatorFacts.
Context `{Runtime}.
Implicit Types (a b r : record) (data out : list record).

Lemma compareCompetitions_id ascending a b :
  compareCompetitions (lit "id") ascending a b =
    Return (Int (if ascending then idKey a - idKey b
                 else idKey b - idKey a)).
Proof. reflexivity. Qed.

Lemma compareCompetitions_year column ascending a b :
  JsString.startsWith (lit "year_") column = true ->
  compareCompetitions column ascending a b =
    dateA ← dateKey column a;
    dateB ← dateKey column b;
    if num_is_zero dateA && num_is_zero dateB then mret (Int 0)
    else if num_is_zero dateA then mret (Int 1)
    else if num_is_zero dateB then mret (Int (-1))
    else mret (if ascending then num_sub dateA dateB
               else num_sub dateB dateA).
Proof.
  intros Hyear. unfold compareCompetitions.
  by rewrite (year_column_not_id _ Hyear), Hyear.
Qed.

Lemma compareCompetitions_throw column ascending a b :
  compareCompetitions column ascending a b = Throw ->
  JsString.startsWith (lit "year_") column = true /\
  exists r, (r = a \/ r = b) /\
    truthy (get r column) = true /\ is_string (get r column) = false.
Proof.
  unfold compareCompetitions.
  destruct (JsString.eqb column (lit "id")); [discriminate|].
  destruct (JsString.startsWith (lit "year_") column).
  - intros Hthrow. split; [done|].
    destruct (dateToSortableNumber (or_else (get a column) (JStr [])))
      as [dateA|] eqn:HA; simpl in Hthrow.
    + destruct (dateToSortableNumber (or_else (get b column) (JStr [])))
        as [dateB|] eqn:HB; simpl in Hthrow.
      * by repeat destruct (num_is_zero _).
      * apply dateToSortableNumber_throw, or_else_not_string in HB.
        exists b. auto.
    + apply dateToSortableNumber_throw, or_else_not_string in HA.
      exists a. auto.
  - by repeat destruct (JsString.ltb _ _).
Qed.

End ComparatorFacts.

(** C10. Whatever the records, the column identifier and the direction,
    the array [sortCompetitions] returns is a permutation of its input,
    of the same length. The call returns unless the column is a year
    column in which some record holds a truthy value that is not a
    string (a number, [true]), the one case in which the comparator
    throws. *)
Theorem sortCompetitions_permutation `{Runtime} (data : list record)
    (column : jsstring) (ascending : bool) :
  match sortCompetitions data column ascending with
  | Return out => data ≡ₚ out /\ length out = length data
  | Throw =>
      JsString.startsWith (lit "year_") column = true /\
      exists r, r ∈ data /\
        truthy (get r column) = true /\ is_string (get r column) = false
  end.
Proof.
  unfold sortCompetitions.
  destruct (Array_sort _ data) as [out|] eqn:Hsort.
  - apply Array_sort_perm in Hsort. split; [done|]. by rewrite Hsort.
  - apply Array_sort_throw in Hsort as (a & b & Ha & Hb & Hthrow).
    apply compareCompetitions_throw in Hthrow as (Hyear & r & Hr & Hbad).
    split; [done|]. exists r. by destruct Hr as [->| ->].
Qed.

(** ** Sorting by identifier *)

Lemma NoDup_map_inj {A B : Type} (f : A -> B) (l : list A) x y :
  NoDup (map f l) -> x ∈ l -> y ∈ l -> f x = f y -> x = y.
Proof.
  induction l as [|z l IH]; simpl; [by intros _ ?%elem_of_nil|].
  intros [Hz Hl]%NoDup_cons Hx%elem_of_cons Hy%elem_of_cons Heq.
  destruct Hx as [->|Hx], Hy as [->|Hy]; [done| | |by apply IH].
  - exfalso. apply Hz. rewrite Heq. apply list_elem_of_In, in_map.
    by apply list_elem_of_In.
  - exfalso. apply Hz. rewrite <- Heq. apply list_elem_of_In, in_map.
    by apply list_elem_of_In.
Qed.

Lemma StronglySorted_reverse {A : Type} (R : relation A) (l : list A) :
  Transitive R ->
  StronglySorted R l -> StronglySorted (flip R) (reverse l).
Proof.
  intros Htrans Hsorted. apply StronglySorted_Sorted, Sorted_reverse in Hsorted.
  apply Sorted_StronglySorted; [|done].
  intros x y z Hxy Hyz. unfold flip in *. by transitivity y.
Qed.

Section IdentifierSort.
Context `{Runtime}.
Implicit Types (data out : list record).

Lemma sortCompetitions_id_returns data ascending :
  exists out, sortCompetitions data (lit "id") ascending = Return out.
Proof.
  apply Array_sort_returns. intros a b _ _.
  rewrite compareCompetitions_id. eauto.
Qed.

Lemma sortCompetitions_id_ascending data out :
  sortCompetitions data (lit "id") true = Return out ->
  StronglySorted (fun a b => idKey a <= idKey b) out.
Proof.
  intros Hsort.
  eapply Array_sort_sorted; [| |done].
  - intros x y z. lia.
  - intros x y c. unfold sortCompare.
    rewrite compareCompetitions_id. simpl. intros [= <-].
    destruct (Z.leb_spec (idKey x - idKey y) 0); lia.
Qed.

Lemma sortCompetitions_id_descending data out :
  sortCompetitions data (lit "id") false = Return out ->
  StronglySorted (fun a b => idKey b <= idKey a) out.
Proof.
  intros Hsort.
  eapply Array_sort_sorted; [| |done].
  - intros x y z. lia.
  - intros x y c. unfold sortCompare.
    rewrite compareCompetitions_id. simpl. intros [= <-].
    destruct (Z.leb_spec (idKey y - idKey x) 0); lia.
Qed.
Lemma sortCompetitions_id_stable data ascending out k :
  sortCompetitions data (lit "id") ascending = Return out ->
  filter (fun r => idKey r = k) out = filter (fun r => idKey r = k) data.
Proof.
  apply Array_sort_stable. intros x y c Hx Hy. unfold sortCompare.
  rewrite compareCompetitions_id. simpl. intros [= <-].
  destruct ascending; lia.
Qed.
End IdentifierSort.

(** C7 (as amended). Sorting a record array by the identifier column
    ascending and descending both return; the two results have the same
    length and the same elements, the first in non-decreasing and the
    second in non-increasing order of the parsed identifier; records with
    the same parsed identifier keep their input order in both; and when
    the parsed identifiers of the records are pairwise distinct, the
    descending result is the reverse of the ascending one. *)
Theorem sortCompetitions_id_reverse `{Runtime} (data : list record) :
  exists asc desc,
    sortCompetitions data (lit "id") true = Return asc /\
    sortCompetitions data (lit "id") false = Return desc /\
    length asc = length desc /\
    asc ≡ₚ desc /\
    StronglySorted (fun a b => idKey a <= idKey b) asc /\
    StronglySorted (fun a b => idKey b <= idKey a) desc /\
    (forall k,
        filter (fun r => idKey r = k) asc
          = filter (fun r => idKey r = k) data /\
        filter (fun r => idKey r = k) desc
          = filter (fun r => idKey r = k) data) /\
    (NoDup (map idKey data) -> desc = reverse asc).
Proof.
  destruct (sortCompetitions_id_returns data true) as [asc Hasc].
  destruct (sortCompetitions_id_returns data false) as [desc Hdesc].
  exists asc, desc.
  pose proof (sortCompetitions_id_ascending _ _ Hasc) as Hup.
  pose proof (sortCompetitions_id_descending _ _ Hdesc) as Hdown.
  pose proof (Array_sort_perm _ _ _ Hasc) as Pasc.
  pose proof (Array_sort_perm _ _ _ Hdesc) as Pdesc.
  assert (asc ≡ₚ desc) as Hperm by (by rewrite <- Pasc, <- Pdesc).
  repeat split; try done.
  - by rewrite Hperm.
  - by eapply sortCompetitions_id_stable.
  - by eapply sortCompetitions_id_stable.
  - intros Hdistinct.
    apply (StronglySorted_unique_strong (fun a b => idKey b <= idKey a)).
    + intros x1 x2 Hx1 Hx2 H12 H21.
      apply (NoDup_map_inj idKey data); [done| | |lia].
      * by rewrite Pdesc.
      * rewrite Pasc. by apply elem_of_reverse.
    + done.
    + apply (StronglySorted_reverse (fun a b => idKey a <= idKey b)); [|done].
      intros x y z. lia.
    + by rewrite reverse_Permutation.
Qed.

(** ** Sorting by a year column *)

Section YearColumn.
Context `{Runtime}.
Variable column : jsstring.
Hypothesis Hyear : JsString.startsWith (lit "year_") column = true.
Implicit Types (a b r : record) (data out : list record).

Lemma compareCompetitions_sentinel_first ascending a b n :
  dateKey column a = Return (Int 0) ->
  dateKey column b = Return (Int n) -> n <> 0 ->
  compareCompetitions column ascending a b = Return (Int 1).
Proof.
  intros Ha Hb Hn. rewrite compareCompetitions_year, Ha, Hb by done.
  simpl. by destruct n.
Qed.

Lemma compareCompetitions_sentinel_second ascending a b n :
  dateKey column a = Return (Int n) -> n <> 0 ->
  dateKey column b = Return (Int 0) ->
  compareCompetitions column ascending a b = Return (Int (-1)).
Proof.
  intros Ha Hn Hb. rewrite compareCompetitions_year, Ha, Hb by done.
  simpl. by destruct n.
Qed.

Lemma compareCompetitions_sentinel_both ascending a b :
  dateKey column a = Return (Int 0) ->
  dateKey column b = Return (Int 0) ->
  compareCompetitions column ascending a b = Return (Int 0).
Proof.
  intros Ha Hb. by rewrite compareCompetitions_year, Ha, Hb.
Qed.

(** Once a sentinel-dated record has appeared in the output, only
    sentinel-dated records follow. *)
Lemma sortCompetitions_sentinels_last ascending data out :
  sortCompetitions data column ascending = Return out ->
  StronglySorted
    (fun a b => dateKey column a = Return (Int 0) ->
                dateKey column b = Return (Int 0)) out.
Proof.
  intros Hsort.
  eapply Array_sort_sorted; [| |done].
  - intros x y z. auto.
  - intros x y c. unfold sortCompare.
    rewrite compareCompetitions_year by done.
    destruct (dateKey column x) as [[|dx]|]; simpl; [| |discriminate];
      (destruct (dateKey column y) as [[|dy]|]; simpl; [| |discriminate]);
      try destruct dx as [|px|px]; try destruct dy as [|py|py];
      destruct ascending; simpl; intros [= <-];
      try (simpl; first [done|discriminate]);
      destruct (_ <=? 0); discriminate.
Qed.
(** With a number for every date, no call of the comparator throws. *)
Lemma sortCompetitions_dated_returns ascending data :
  (forall r, r ∈ data -> exists z, dateKey column r = Return (Int z)) ->
  exists out, sortCompetitions data column ascending = Return out.
Proof.
  intros Hdated. apply Array_sort_returns. intros a b Ha Hb.
  destruct (Hdated a Ha) as [da Hda], (Hdated b Hb) as [db Hdb].
  rewrite compareCompetitions_year, Hda, Hdb by done. simpl.
  destruct da as [|pa|pa], db as [|pb|pb]; simpl; eexists; reflexivity.
Qed.
End YearColumn.

(** C4. On a year column, in both directions: the comparator puts a
    record whose date parses to the sentinel 0 after a record whose date
    parses to a non-zero number, whichever of the two comes first in the
    call; it finds two sentinel-dated records equal; and for an array
    whose dates all parse to numbers, [sortCompetitions] returns an
    array of the same records in which every record with a non-zero
    date stands before every sentinel-dated record. *)
Theorem sortCompetitions_sentinel_last `{Runtime} (column : jsstring)
    (ascending : bool) :
  JsString.startsWith (lit "year_") column = true ->
  (forall a b n,
      dateKey column a = Return (Int 0) ->
      dateKey column b = Return (Int n) -> n <> 0 ->
      compareCompetitions column ascending a b = Return (Int 1) /\
      compareCompetitions column ascending b a = Return (Int (-1)))
  /\ (forall a b,
      dateKey column a = Return (Int 0) ->
      dateKey column b = Return (Int 0) ->
      compareCompetitions column ascending a b = Return (Int 0))
  /\ (forall data,
      (forall r, r ∈ data -> exists z, dateKey column r = Return (Int z)) ->
      exists out,
        sortCompetitions data column ascending = Return out /\
        data ≡ₚ out /\
        forall i j a b n,
          out !! i = Some a -> out !! j = Some b ->
          dateKey column a = Return (Int 0) ->
          dateKey column b = Return (Int n) -> n <> 0 ->
          (j < i)%nat).
Proof.
  intros Hyear. split; [|split].
  - intros a b n Ha Hb Hn. split.
    + by eapply compareCompetitions_sentinel_first.
    + by eapply compareCompetitions_sentinel_second.
  - intros a b. by apply compareCompetitions_sentinel_both.
  - intros data Hdated.
    destruct (sortCompetitions_dated_returns column Hyear ascending data
                Hdated) as [out Hsort].
    exists out. split; [done|].
    split; [by apply Array_sort_perm in Hsort|].
    intros i j a b n Hi Hj Ha Hb Hn.
    apply (sortCompetitions_sentinels_last column Hyear) in Hsort.
    destruct (Nat.lt_trichotomy j i) as [Hlt|[->|Hgt]]; [done| |].
    + rewrite Hi in Hj. injection Hj as ->. rewrite Ha in Hb.
      by injection Hb as <-.
    + exfalso.
      rewrite <- (take_drop (S i) out) in Hsort, Hj.
      apply StronglySorted_app in Hsort as (Hcross & _ & _).
      assert (a ∈ take (S i) out) as Hin_a.
      { apply list_elem_of_lookup. exists i.
        rewrite lookup_take_lt by lia. done. }
      assert (b ∈ drop (S i) out) as Hin_b.
      { apply list_elem_of_lookup. exists (j - S i)%nat.
        rewrite lookup_app_r in Hj; rewrite length_take in *.
        - replace (S i `min` length out)%nat with (S i) in Hj; [done|].
          apply lookup_lt_Some in Hi. lia.
        - apply lookup_lt_Some in Hi. lia. }
      specialize (Hcross a b Hin_a Hin_b Ha). rewrite Hb in Hcross.
      by injection Hcross as ->.
Qed.

(** ** The chart data adapter *)

Lemma county_keys_length : length county_keys = 42%nat.
Proof. reflexivity. Qed.

Section CountySeries.
Variable jsonData : statistics.
Variable year : Z.

Lemma chart_county_length :
  length (chart_county (charts_by_year jsonData year)) = 42%nat.
Proof.
  unfold charts_by_year; cbn [chart_county].
  destruct (competitions_by_county jsonData !! int_toString year);
    reflexivity.
Qed.

Lemma chart_county_keys :
  map fst (chart_county (charts_by_year jsonData year))
  = map fst county_keys.
Proof.
  unfold charts_by_year; cbn [chart_county].
  destruct (competitions_by_county jsonData !! int_toString year);
    reflexivity.
Qed.

Lemma chart_county_present by_county i hc_key code :
  competitions_by_county jsonData !! int_toString year = Some by_county ->
  county_keys !! i = Some (hc_key, code) ->
  chart_county (charts_by_year jsonData year) !! i
  = Some (hc_key, default JUndefined (by_county !! code)).
Proof.
  intros Hyear Hi. unfold charts_by_year; cbn [chart_county].
  rewrite Hyear.
  change (map ?f ?l) with (f <$> l).
  rewrite list_lookup_fmap, Hi. done.
Qed.

Lemma chart_county_absent i hc_key code :
  competitions_by_county jsonData !! int_toString year = None ->
  county_keys !! i = Some (hc_key, code) ->
  chart_county (charts_by_year jsonData year) !! i
  = Some (hc_key, JNum 0).
Proof.
  intros Hyear Hi. unfold charts_by_year; cbn [chart_county].
  rewrite Hyear.
  change (map ?f ?l) with (f <$> l).
  rewrite list_lookup_fmap, Hi. done.
Qed.
End CountySeries.

Lemma update_charts_by_year_drawn jsonData year p :
  drawn (update_charts_by_year jsonData year p)
  = Some (charts_by_year jsonData year).
Proof. reflexivity. Qed.

(** C1 (as amended). When the requested year is present in the county
    statistics, the county series handed to the chart is the fixed list
    of the 42 map keys in the order of [county_keys], whatever the
    snapshot, each paired with the value stored under its county code for
    that year, or with [undefined] when the code is absent. For the
    snapshot [{"2025":{"AB":3,"B":10}}] and year 2025 the series has
    exactly 42 pairs, ["ro-ab"] with 3 at index 0, ["ro-bi"] with 10 (read
    from key ["B"]) at index 3, and [undefined] in every other pair. *)
Theorem chart_county_series :
  (forall jsonData year p by_county,
      competitions_by_county jsonData !! int_toString year = Some by_county ->
      exists c,
        drawn (update_charts_by_year jsonData year p) = Some c /\
        length (chart_county c) = 42%nat /\
        map fst (chart_county c) = map fst county_keys /\
        (forall i hc_key code,
            county_keys !! i = Some (hc_key, code) ->
            chart_county c !! i =
              Some (hc_key, default JUndefined (by_county !! code))))
  /\ (forall p,
      exists c,
        drawn (update_charts_by_year Examples.two_counties 2025 p) = Some c /\
        length (chart_county c) = 42%nat /\
        chart_county c !! 0%nat = Some (lit "ro-ab", JNum 3) /\
        chart_county c !! 3%nat = Some (lit "ro-bi", JNum 10) /\
        (forall i pair, i <> 0%nat -> i <> 3%nat ->
            chart_county c !! i = Some pair -> pair.2 = JUndefined)).
Proof.
  split.
  - intros jsonData year p by_county Hyear.
    exists (charts_by_year jsonData year). repeat split.
    + apply chart_county_length.
    + apply chart_county_keys.
    + intros i hc_key code Hi. by apply chart_county_present.
  - intros p. exists (charts_by_year Examples.two_counties 2025).
    repeat split.
    intros i pair Hi0 Hi3.
    do 42 (destruct i as [|i]; [try done; by intros [= <-]|]).
    done.
Qed.

(** The amended claim applied to the example snapshot. *)
Lemma chart_county_series_witness :
  exists c,
    drawn (update_charts_by_year Examples.two_counties 2025
             Examples.blank_page) = Some c /\
    length (chart_county c) = 42%nat /\
    map fst (chart_county c) = map fst county_keys.
Proof.
  destruct (proj1 chart_county_series Examples.two_counties 2025
              Examples.blank_page
              ({[ lit "AB" := JNum 3; lit "B" := JNum 10 ]})
              eq_refl) as (c & Hdrawn & Hlen & Hkeys & _).
  exists c. split; [exact Hdrawn|]. split; [exact Hlen | exact Hkeys].
Defined.

(** C1 as stated fails on its own example: the series has 42 pairs, not
    41, and a code without an entry is paired with [undefined], not 0. *)
Lemma chart_county_not_41_nor_zero :
  drawn (update_charts_by_year Examples.two_counties 2025
           Examples.blank_page)
  = Some (charts_by_year Examples.two_counties 2025)
  /\ length (chart_county (charts_by_year Examples.two_counties 2025))
     = 42%nat
  /\ length (chart_county (charts_by_year Examples.two_counties 2025))
     <> 41%nat
  /\ chart_county (charts_by_year Examples.two_counties 2025) !! 1%nat
     = Some (lit "ro-ar", JUndefined)
  /\ chart_county (charts_by_year Examples.two_counties 2025) !! 1%nat
     <> Some (lit "ro-ar", JNum 0).
Proof. repeat split; discriminate. Qed.

(** C5 (as amended). For a year that none of the five maps of the
    snapshot has, the adapter hands to the charts the total 0, twelve
    zero months, the type breakdown [{trail: 0, road: 0, other: 0}], a
    county series of the 42 map keys each paired with 0, and an empty
    towns mapping. *)
Theorem charts_year_absent (jsonData : statistics) (year : Z)
    (p : stats_page) :
  total_competitions jsonData !! int_toString year = None ->
  competitions_by_month jsonData !! int_toString year = None ->
  competitions_by_type jsonData !! int_toString year = None ->
  competitions_by_county jsonData !! int_toString year = None ->
  competitions_by_towns jsonData !! int_toString year = None ->
  exists c,
    drawn (update_charts_by_year jsonData year p) = Some c /\
    chart_total c = JNum 0 /\
    chart_months c = repeat (JNum 0) 12 /\
    length (chart_months c) = 12%nat /\
    chart_type c =
      {[ lit "trail" := JNum 0; lit "road" := JNum 0;
         lit "other" := JNum 0 ]} /\
    length (chart_county c) = 42%nat /\
    map fst (chart_county c) = map fst county_keys /\
    Forall (fun pair => pair.2 = JNum 0) (chart_county c) /\
    chart_towns c = ∅.
Proof.
  intros Htotal Hmonth Htype Hcounty Htowns.
  exists (charts_by_year jsonData year). split; [reflexivity|].
  unfold charts_by_year; simpl.
  rewrite Htotal, Hmonth, Htype, Hcounty, Htowns. simpl.
  repeat split. repeat constructor.
Qed.

Lemma charts_year_absent_witness :
  exists c,
    drawn (update_charts_by_year Examples.no_statistics 2025
             Examples.blank_page) = Some c /\
    chart_total c = JNum 0 /\ length (chart_county c) = 42%nat.
Proof.
  destruct (charts_year_absent Examples.no_statistics 2025
              Examples.blank_page
              eq_refl eq_refl eq_refl eq_refl eq_refl)
    as (c & Hdrawn & Htotal & _ & _ & _ & Hlen & _).
  exists c. split; [exact Hdrawn|]. split; [exact Htotal | exact Hlen].
Defined.

(** C5 as stated fails: the county series of an absent year has 42
    pairs, not 41. *)
Lemma charts_year_absent_not_41 :
  drawn (update_charts_by_year Examples.no_statistics 2025
           Examples.blank_page)
  = Some (charts_by_year Examples.no_statistics 2025)
  /\ length (chart_county (charts_by_year Examples.no_statistics 2025))
     = 42%nat
  /\ length (chart_county (charts_by_year Examples.no_statistics 2025))
     <> 41%nat.
Proof. repeat split; discriminate. Qed.

(** ** The table renderer *)

Lemma populate_rows_width colspan render tableBody competitions rows :
  (forall r, length (render r) = colspan) ->
  competitions <> [] ->
  populate colspan render (Some tableBody) (Some competitions) = Some rows ->
  length rows = length competitions /\
  Forall (fun cells => length cells = colspan) rows.
Proof.
  intros Hwidth Hne. unfold populate.
  destruct competitions as [|c cs]; [done|].
  intros [= <-]. split; [apply (length_map render (c :: cs))|].
  apply Forall_forall. intros cells Hin.
  change (cells ∈ map render (c :: cs)) in Hin.
  apply list_elem_of_In, in_map_iff in Hin as (r & <- & _). apply Hwidth.
Qed.

(** C8. In each of the three table shapes, an empty or a missing record
    array leaves in the table body exactly one row, made of one cell that
    spans the shape's column count: 8 for the full table, 6 for the
    reduced and 5 for the minimal one; these are the numbers of cells of
    the rows rendered for records. *)
Theorem populateTable_empty (tableBody : list row) :
  (populateTable1 (Some tableBody) None = Some [no_competitions_row 8] /\
   populateTable1 (Some tableBody) (Some []) = Some [no_competitions_row 8] /\
   populateTable2 (Some tableBody) None = Some [no_competitions_row 6] /\
   populateTable2 (Some tableBody) (Some []) = Some [no_competitions_row 6] /\
   populateTable3 (Some tableBody) None = Some [no_competitions_row 5] /\
   populateTable3 (Some tableBody) (Some []) = Some [no_competitions_row 5])
  /\ (forall n, length (no_competitions_row n) = 1%nat /\
                map colSpan (no_competitions_row n) = [n])
  /\ (forall r, length (table1_row r) = 8%nat /\
                length (table2_row r) = 6%nat /\
                length (table3_row r) = 5%nat)
  /\ (forall r, Forall (fun c => colSpan c = 1%nat)
                  (table1_row r ++ table2_row r ++ table3_row r)).
Proof.
  repeat split. repeat constructor.
Qed.

(** ** The per-table sort state *)

Lemma select_column_same st :
  select_column st (column st) =
    {| column := column st; ascending := negb (ascending st) |}.
Proof.
  unfold select_column, JsString.eqb. by rewrite bool_decide_eq_true_2.
Qed.

Lemma select_column_other st col :
  column st <> col ->
  select_column st col = {| column := col; ascending := true |}.
Proof.
  intros Hne. unfold select_column, JsString.eqb.
  by rewrite bool_decide_eq_false_2.
Qed.

Lemma select_column_twice st :
  select_column (select_column st (column st)) (column st) = st.
Proof.
  rewrite select_column_same.
  pose proof (select_column_same
                {| column := column st; ascending := negb (ascending st) |})
    as Hagain.
  simpl in Hagain. rewrite Hagain, negb_involutive. by destruct st.
Qed.

(** C6 (as amended). [sortTable1], [sortTable2] and [sortTable3] each
    move the state of their own table by [select_column]. Selecting the
    active column flips the ascending flag and keeps the column;
    selecting another column makes it active with ascending = true;
    selecting the active column twice gives back the state there was, so
    ascending = true again exactly when it was true before. *)
Theorem select_column_toggle `{Runtime} :
  (forall p col,
      sortState_table1 (sortTable1 p col).1
        = select_column (sortState_table1 p) col /\
      sortState_table2 (sortTable2 p col).1
        = select_column (sortState_table2 p) col /\
      sortState_table3 (sortTable3 p col).1
        = select_column (sortState_table3 p) col)
  /\ (forall st,
      select_column st (column st) =
        {| column := column st; ascending := negb (ascending st) |})
  /\ (forall st col,
      column st <> col ->
      select_column st col = {| column := col; ascending := true |})
  /\ (forall st,
      select_column (select_column st (column st)) (column st) = st)
  /\ (forall st,
      ascending st = true ->
      select_column (select_column st (column st)) (column st) =
        {| column := column st; ascending := true |}).
Proof.
  split; [|split; [|split; [|split]]].
  - intros p col. unfold sortTable1, sortTable2, sortTable3.
    repeat split; by destruct (sortCompetitions _ _ _).
  - apply select_column_same.
  - apply select_column_other.
  - apply select_column_twice.
  - intros st Hasc. rewrite select_column_twice. destruct st; simpl in *.
    by rewrite Hasc.
Qed.

(** The amended claim on the initial state of a table. *)
Lemma select_column_toggle_witness :
  select_column (select_column initial_sort_state (lit "name")) (lit "name")
    = {| column := lit "name"; ascending := true |}
  /\ select_column initial_sort_state (lit "id")
    = {| column := lit "id"; ascending := true |}.
Proof.
  pose proof (@select_column_toggle ReferenceRuntime.runtime)
    as (_ & _ & Hother & _ & Htwice).
  split.
  - exact (Htwice initial_sort_state eq_refl).
  - apply (Hother initial_sort_state (lit "id")). discriminate.
Defined.

(** C6 as stated fails: from a state that is descending on the active
    column, selecting that column twice ends descending, not ascending. *)
Lemma select_column_twice_descending :
  select_column
    (select_column Examples.name_descending (lit "name")) (lit "name")
    = {| column := lit "name"; ascending := false |}
  /\ ascending
       (select_column
          (select_column Examples.name_descending (lit "name")) (lit "name"))
     <> true.
Proof. split; [reflexivity | discriminate]. Qed.

(** ** The build badge *)

Section LatestVersion.
Implicit Types (v first : version) (rest versions : list version).



End LatestVersion.




(** ** Sorting and the source array *)

(** [sortCompetitions] sorts a copy: the array it was given, and every
    other array of the store, is as before, and the array it returns is a
    new one holding the sorted records. *)
Lemma sortCompetitions_ref_frame `{Runtime} (h h' : gmap nat (list record))
    (data sorted : nat) (column : jsstring) (ascending : bool) :
  sortCompetitions_ref h data column ascending = Return (h', sorted) ->
  h' !! data = h !! data /\
  (forall a, is_Some (h !! a) -> h' !! a = h !! a) /\
  h !! sorted = None /\
  exists elems out,
    h !! data = Some elems /\
    sortCompetitions elems column ascending = Return out /\
    h' !! sorted = Some out.
Proof.
  unfold sortCompetitions_ref, spread, sort_in_place.
  destruct (h !! data) as [elems|] eqn:Hdata; simpl; [|discriminate].
  rewrite lookup_insert_eq. simpl.
  destruct (Array_sort _ elems) as [out|] eqn:Hsort; simpl; [|discriminate].
  intros [= <- <-].
  assert (h !! fresh (dom h) = None) as Hfresh.
  { apply not_elem_of_dom, is_fresh. }
  assert (forall a, is_Some (h !! a) ->
            <[fresh (dom h):=out]> (<[fresh (dom h):=elems]> h) !! a = h !! a)
    as Hframe.
  { intros a [x Ha]. rewrite !lookup_insert_ne; [done|congruence..]. }
  repeat split.
  - rewrite Hframe, Hdata; eauto.
  - done.
  - done.
  - exists elems, out. repeat split; [done|]. by rewrite lookup_insert_eq.
Qed.

(** C3, the bad-news half on a fetched array of two events in date
    order: [update_bad_news_table] returns, and the array behind the
    reference it was given is no longer what was fetched; it now holds
    the events latest first. *)
Theorem update_bad_news_table_reorders `{Runtime}
    (table : option (list news_row)) :
  exists h' table',
    update_bad_news_table Examples.fetched_news 0 table = Return (h', table')
    /\ Examples.fetched_news !! 0%nat
       = Some [Examples.january; Examples.june]
    /\ h' !! 0%nat = Some [Examples.june; Examples.january]
    /\ h' !! 0%nat <> Examples.fetched_news !! 0%nat.
Proof.
  eexists _, _. split; [reflexivity|].
  split; [reflexivity|]. split; [reflexivity|]. discriminate.
Qed.

(** ** The sort on example records *)

Section Runs.
Import Examples.
#[local] Existing Instance ReferenceRuntime.runtime.

Example sort_by_id_ascending :
  sortCompetitions [dated; undated] (lit "id") true
  = Return [undated; dated].
Proof. vm_compute. reflexivity. Qed.

Example sort_by_name_descending :
  sortCompetitions [dated; undated] (lit "name") false
  = Return [undated; dated].
Proof. vm_compute. reflexivity. Qed.

Example sort_by_date_descending :
  sortCompetitions [undated; dated] (lit "year_2025") false
  = Return [dated; undated].
Proof. vm_compute. reflexivity. Qed.

(** The specification's two-record example: by name, ["Ana"] comes
    before ["Été"]; by identifier, ["1"] before ["2"]. *)
Example sort_ana_ete :
  let ete := record_of [ (lit "id", JStr (lit "2"));
                         (lit "name", JStr [201; 116; 233]%N) ] in
  let ana := record_of [ (lit "id", JStr (lit "1"));
                         (lit "name", JStr (lit "Ana")) ] in
  sortCompetitions [ete; ana] (lit "name") true = Return [ana; ete]
  /\ sortCompetitions [ete; ana] (lit "id") true = Return [ana; ete].
Proof. split; vm_compute; reflexivity. Qed.

Example sort_by_date_of_numbers :
  sortCompetitions [dated; undated] (lit "year_") true = Return [dated; undated]
  /\ sortCompetitions
       [record_of [(lit "year_1", JNum 7)]; undated] (lit "year_1") true
     = Throw.
Proof. split; vm_compute; reflexivity. Qed.
End Runs.

Lemma first_second_distinct :
  Examples.first_of_one <> Examples.second_of_one.
Proof.
  intros Heq.
  assert (get Examples.first_of_one (lit "name")
          = get Examples.second_of_one (lit "name")) as Hname
    by (by rewrite Heq).
  vm_compute in Hname. discriminate.
Qed.

(** C7 as stated fails: two records with the same identifier keep their
    order in both directions, so the descending result is not the reverse
    of the ascending one. *)
Lemma sortCompetitions_id_not_reverse :
  ~ (forall (rt : Runtime) (data asc desc : list record),
        sortCompetitions data (lit "id") true = Return asc ->
        sortCompetitions data (lit "id") false = Return desc ->
        desc = reverse asc).
Proof.
  intros Hclaim.
  specialize (Hclaim ReferenceRuntime.runtime
                [Examples.first_of_one; Examples.second_of_one]
                [Examples.first_of_one; Examples.second_of_one]
                [Examples.first_of_one; Examples.second_of_one]).
  assert ([Examples.first_of_one; Examples.second_of_one]
          = reverse [Examples.first_of_one; Examples.second_of_one]) as Heq.
  { apply Hclaim; vm_compute; reflexivity. }
  injection Heq as Hfirst _. by apply first_second_distinct.
Qed.

(** The amended C7 on two records with the identifiers 2 and 1. *)
Lemma sortCompetitions_id_reverse_witness :
  exists asc desc,
    @sortCompetitions ReferenceRuntime.runtime
      [Examples.dated; Examples.undated] (lit "id") true = Return asc /\
    @sortCompetitions ReferenceRuntime.runtime
      [Examples.dated; Examples.undated] (lit "id") false = Return desc /\
    desc = reverse asc.
Proof.
  destruct (@sortCompetitions_id_reverse ReferenceRuntime.runtime
              [Examples.dated; Examples.undated])
    as (asc & desc & Hasc & Hdesc & _ & _ & _ & _ & _ & Hrev).
  exists asc, desc. split; [exact Hasc|]. split; [exact Hdesc|].
  apply Hrev. apply (bool_decide_unpack _). vm_compute. reflexivity.
Defined.

(** C4 on the 2025 column of two records, one dated and one not. *)
Lemma sortCompetitions_sentinel_last_witness :
  @compareCompetitions ReferenceRuntime.runtime (lit "year_2025") false
    Examples.undated Examples.dated = Return (Int 1)
  /\ exists out,
       @sortCompetitions ReferenceRuntime.runtime
         [Examples.undated; Examples.dated] (lit "year_2025") false
       = Return out
       /\ [Examples.undated; Examples.dated] ≡ₚ out
       /\ (out !! 1%nat = Some Examples.undated ->
           out !! 0%nat = Some Examples.dated -> (0 < 1)%nat).
Proof.
  destruct (@sortCompetitions_sentinel_last ReferenceRuntime.runtime
              (lit "year_2025") false eq_refl) as (Hcompare & _ & Hplaces).
  split.
  - apply (Hcompare Examples.undated Examples.dated 124);
      [reflexivity | reflexivity | discriminate].
  - destruct (Hplaces [Examples.undated; Examples.dated])
      as (out & Hsort & Hperm & Horder).
    + intros r Hr.
      apply elem_of_cons in Hr as [->|Hr]; [exists 0; reflexivity|].
      apply elem_of_cons in Hr as [->|Hr]; [exists 124; reflexivity|].
      exfalso. exact (proj1 (elem_of_nil r) Hr).
    + exists out. split; [exact Hsort|]. split; [exact Hperm|].
      intros Hlast Hfirst.
      apply (Horder 1%nat 0%nat Examples.undated Examples.dated 124);
        [exact Hlast | exact Hfirst | reflexivity | reflexivity
        | discriminate].
Defined.

(** C10 on the example records: the call returns a permutation. *)
Lemma sortCompetitions_permutation_witness :
  exists out,
    @sortCompetitions ReferenceRuntime.runtime
      [Examples.dated; Examples.undated] (lit "name") false = Return out
    /\ [Examples.dated; Examples.undated] ≡ₚ out.
Proof.
  pose proof (@sortCompetitions_permutation ReferenceRuntime.runtime
                [Examples.dated; Examples.undated] (lit "name") false)
    as Hperm.
  assert (@sortCompetitions ReferenceRuntime.runtime
            [Examples.dated; Examples.undated] (lit "name") false
          = Return [Examples.undated; Examples.dated]) as Hsort
    by (vm_compute; reflexivity).
  rewrite Hsort in Hperm |- *.
  exists [Examples.undated; Examples.dated].
  split; [reflexivity | exact (proj1 Hperm)].
Defined.

(** ** Numbers written out and read back *)

Section ParseDecimal.
Import Decimal.

Lemma read_digits_of_uint_acc (d : uint) (p : positive) :
  read_digits 10 true (Zpos p) (uint_units d)
  = Some (Zpos (Pos.of_uint_acc d p)).
Proof.
  revert p. induction d as [|d IH|d IH|d IH|d IH|d IH|d IH|d IH|d IH|d IH|d IH];
    intros p; [reflexivity|..];
    cbn [uint_units read_digits Pos.of_uint_acc];
    match goal with
    | |- context [digit_value 10 ?c] =>
        let v := eval vm_compute in (digit_value 10 c) in
        change (digit_value 10 c) with v
    end; cbv iota beta.
  all: rewrite <- IH; f_equal.
  all: lia.
Qed.

Lemma read_digits_of_uint (d : uint) (seen : bool) :
  seen = true \/ d <> Nil ->
  read_digits 10 seen 0 (uint_units d) = Some (Z.of_N (Pos.of_uint d)).
Proof.
  revert seen. induction d as [|d IH|d IH|d IH|d IH|d IH|d IH|d IH|d IH|d IH|d IH];
    intros seen Hseen.
  - destruct Hseen as [->|Hnil]; [reflexivity|done].
  - cbn [uint_units read_digits Pos.of_uint].
    change (digit_value 10 48) with (Some 0). cbv iota beta.
    change (0 * 10 + 0) with 0. apply IH. by left.
  - apply (read_digits_of_uint_acc d 1).
  - apply (read_digits_of_uint_acc d 2).
  - apply (read_digits_of_uint_acc d 3).
  - apply (read_digits_of_uint_acc d 4).
  - apply (read_digits_of_uint_acc d 5).
  - apply (read_digits_of_uint_acc d 6).
  - apply (read_digits_of_uint_acc d 7).
  - apply (read_digits_of_uint_acc d 8).
  - apply (read_digits_of_uint_acc d 9).
Qed.

Lemma uint_units_digits (d : uint) :
  Forall (fun c => (48 <= c <= 57)%N) (uint_units d).
Proof. induction d; simpl; constructor; first [lia | done]. Qed.

Lemma uint_units_nonnil (d : uint) : d <> Nil -> uint_units d <> [].
Proof. by destruct d. Qed.

(** On a string of decimal digits [parseInt] has no blank to skip, no
    sign and no [0x] prefix to find. *)
Lemma parseInt_string_of_digits (s : jsstring) :
  Forall (fun c => (48 <= c <= 57)%N) s ->
  parseInt_string s =
    match read_digits 10 false 0 s with
    | Some z => Int z
    | None => NaN
    end.
Proof.
  intros Hdigits. destruct s as [|c s]; [reflexivity|].
  apply Forall_cons in Hdigits as [Hc Hdigits].
  unfold parseInt_string.
  assert (trimStart (c :: s) = c :: s) as ->.
  { simpl. unfold is_whitespace.
    repeat match goal with
           | |- context [N.leb ?a ?b] => destruct (N.leb_spec a b); try lia
           | |- context [N.eqb ?a ?b] => destruct (N.eqb_spec a b); try lia
           end; reflexivity. }
  assert (read_unsigned (c :: s) = read_digits 10 false 0 (c :: s))
    as Hunsigned.
  { unfold read_unsigned. destruct s as [|x s'].
    - destruct c as [|pc]; [done|].
      by repeat (destruct pc as [pc|pc|]; try done).
    - apply Forall_cons in Hdigits as [Hx _].
      assert (((x =? 120) || (x =? 88))%N = false) as Hmarker.
      { destruct (N.eqb_spec x 120), (N.eqb_spec x 88); first [lia | done]. }
      destruct c as [|pc]; [done|].
      repeat (destruct pc as [pc|pc|]; try done); by rewrite Hmarker. }
  destruct c as [|pc]; [lia|].
  assert (pc <> 45%positive /\ pc <> 43%positive) as [H45 H43] by lia.
  rewrite <- Hunsigned.
  repeat (destruct pc as [pc|pc|]; try done).
Qed.

Lemma parseInt_string_decimal (d : uint) :
  d <> Nil ->
  parseInt_string (uint_units d) = Int (Z.of_N (Pos.of_uint d)).
Proof.
  intros Hnil. rewrite parseInt_string_of_digits by apply uint_units_digits.
  by rewrite read_digits_of_uint by (by right).
Qed.

Lemma parseInt_int_toString (n : Z) :
  parseInt_string (int_toString n) = Int n.
Proof.
  destruct n as [|p|p]; [reflexivity| |].
  - simpl. rewrite parseInt_string_decimal by apply Unsigned.to_uint_nonnil.
    by rewrite Unsigned.of_to.
  - pose proof (parseInt_string_of_digits _
                  (uint_units_digits (Pos.to_uint p))) as Hparse.
    rewrite read_digits_of_uint in Hparse
      by (right; apply Unsigned.to_uint_nonnil).
    rewrite Unsigned.of_to in Hparse.
    pose proof (uint_units_digits (Pos.to_uint p)) as Hdigits.
    pose proof (uint_units_nonnil _ (Unsigned.to_uint_nonnil p)) as Hnonnil.
    simpl int_toString. unfold parseInt_string in *. simpl trimStart.
    destruct (uint_units (Pos.to_uint p)) as [|c s]; [done|].
    apply Forall_cons in Hdigits as [Hc _].
    assert (trimStart (c :: s) = c :: s) as Htrim.
    { simpl. unfold is_whitespace.
      repeat match goal with
             | |- context [N.leb ?a ?b] => destruct (N.leb_spec a b); try lia
             | |- context [N.eqb ?a ?b] => destruct (N.eqb_spec a b); try lia
             end; reflexivity. }
    rewrite Htrim in Hparse.
    destruct c as [|pc]; [lia|].
    assert (pc <> 45%positive /\ pc <> 43%positive) as [H45 H43] by lia.
    assert (read_unsigned (N.pos pc :: s) = Some (Z.pos p)) as ->;
      [|reflexivity].
    revert Hparse.
    repeat (destruct pc as [pc|pc|]; try done);
      destruct (read_unsigned _); by intros [= ->].
Qed.
End ParseDecimal.

(** ** Identifiers and dates as sort keys *)

(** X1. A record whose [id] is the integer [n], or the decimal text of
    [n], is sorted by [n] on the identifier column, for [n] between
    -2^53 and 2^53: an integer that a number holds exactly. *)
Theorem idKey_numeric (r : record) (n : Z) :
  safe_integer n ->
  get r (lit "id") = JNum n \/ get r (lit "id") = JStr (int_toString n) ->
  idKey r = n.
Proof.
  unfold idKey, or_else, parseInt. intros _ [-> | ->].
  - simpl truthy. destruct (Z.eqb_spec n 0) as [->|Hn]; [done|].
    simpl. by rewrite parseInt_int_toString.
  - assert (truthy (JStr (int_toString n)) = true) as ->.
    { simpl. unfold JsString.eqb. rewrite bool_decide_eq_false_2; [done|].
      destruct n; [done|apply uint_units_nonnil..|done];
        apply Unsigned.to_uint_nonnil. }
    simpl. by rewrite parseInt_int_toString.
Qed.

Lemma idKey_numeric_witness : idKey Examples.dated = 2.
Proof.
  apply (idKey_numeric Examples.dated 2).
  - unfold safe_integer. lia.
  - left. reflexivity.
Defined.

(** ** More on the date token parser *)

Lemma split_pieces_without (sep : N) (s piece : jsstring) :
  piece ∈ JsString.split sep s -> sep ∉ piece.
Proof.
  revert piece. induction s as [|c s IH]; intros piece; simpl.
  - intros ->%list_elem_of_singleton. apply not_elem_of_nil.
  - destruct (N.eqb_spec c sep) as [->|Hne].
    + intros [->|Hin]%elem_of_cons; [apply not_elem_of_nil | by apply IH].
    + destruct (JsString.split sep s) as [|p ps] eqn:Hsplit.
      * intros ->%list_elem_of_singleton.
        apply not_elem_of_cons. split; [done | apply not_elem_of_nil].
      * intros [->|Hin]%elem_of_cons.
        -- apply not_elem_of_cons. split; [done|]. apply IH. by left.
        -- apply IH. by right.
Qed.

Lemma read_digits_nonneg (radix : Z) (seen : bool) (acc : Z) (s : jsstring)
    (z : Z) :
  0 <= radix -> 0 <= acc ->
  read_digits radix seen acc s = Some z -> 0 <= z.
Proof.
  intros Hradix. revert seen acc.
  induction s as [|c s IH]; intros seen acc Hacc; simpl.
  - destruct seen; [by intros [= <-] | discriminate].
  - destruct (digit_value radix c) as [d|] eqn:Hd.
    + apply IH. unfold digit_value in Hd.
      repeat match type of Hd with
             | context [if ?b then _ else _] => destruct b eqn:?
             end; try discriminate; injection Hd as <-; lia.
    + destruct seen; [by intros [= <-] | discriminate].
Qed.

Lemma read_unsigned_nonneg (s : jsstring) (z : Z) :
  read_unsigned s = Some z -> 0 <= z.
Proof.
  unfold read_unsigned.
  destruct s as [|c [|x s']]; [by apply read_digits_nonneg|..];
    (destruct c as [|pc]; [by apply read_digits_nonneg|]);
    repeat (destruct pc as [pc|pc|]; try (by apply read_digits_nonneg)).
  destruct ((x =? 120) || (x =? 88))%N; by apply read_digits_nonneg.
Qed.

Lemma trimStart_suffix (s : jsstring) (c : N) :
  c ∈ ParseInt.trimStart s -> c ∈ s.
Proof.
  induction s as [|x s IH]; simpl; [done|].
  destruct (is_whitespace x); [|done].
  intros Hin. right. by apply IH.
Qed.

(** Without a hyphen in it, a string never parses to a negative
    number. *)
Lemma parseInt_string_nonneg (s : jsstring) (z : Z) :
  45%N ∉ s -> parseInt_string s = Int z -> 0 <= z.
Proof.
  intros Hminus. unfold parseInt_string.
  pose proof (trimStart_suffix s 45) as Hsuffix.
  destruct (ParseInt.trimStart s) as [|c t].
  - destruct (read_unsigned []) eqn:Hread; [|discriminate].
    intros [= <-]. by eapply read_unsigned_nonneg.
  - assert (c <> 45%N) as Hc.
    { intros ->. apply Hminus, Hsuffix. by left. }
    assert (forall u, match read_unsigned u with
                      | Some z0 => Int z0
                      | None => NaN
                      end = Int z -> 0 <= z) as Hunsigned.
    { intros u. destruct (read_unsigned u) eqn:Hread; [|discriminate].
      intros [= <-]. by eapply read_unsigned_nonneg. }
    destruct c as [|pc]; [apply Hunsigned|].
    repeat (destruct pc as [pc|pc|]; try apply Hunsigned).
    done.
Qed.

Lemma month_or_zero_nonneg (name : jsstring) (m : Z) :
  month_or_zero name = Int m -> 0 <= m <= 12.
Proof.
  unfold month_or_zero.
  destruct (assoc name months) as [k|] eqn:Hk.
  - intros [= <-]. unfold months in Hk. simpl in Hk.
    repeat match type of Hk with
           | context [if ?b then _ else _] =>
               destruct b; [injection Hk as <-; lia|]
           end.
    discriminate.
  - destruct (bool_decide _); [discriminate|]. intros [= <-]. lia.
Qed.

(** X2. Whatever it is given, [dateToSortableNumber] never returns a
    negative number: the sentinel 0 is the least value it returns. *)
Theorem dateToSortableNumber_nonneg (dateStr : JsVal) (n : Z) :
  dateToSortableNumber dateStr = Return (Int n) -> 0 <= n.
Proof.
  unfold dateToSortableNumber.
  destruct (negb (truthy dateStr)); [by intros [= <-]|].
  destruct dateStr as [| |b|k|s]; try discriminate.
  destruct (JsString.split 32 s) as [|p1 [|p2 [|p3 ps]]];
    try (by intros [= <-]).
  pose proof (split_pieces_without 45 p2) as Hpieces.
  destruct (JsString.split 45 p2) as [|dayStr [|monthStr [|q3 qs]]];
    try (by intros [= <-]).
  destruct (month_or_zero monthStr) as [|m] eqn:Hmonth; [discriminate|].
  apply month_or_zero_nonneg in Hmonth.
  simpl. intros [= <-].
  assert (0 <= num_or_zero (parseInt (JStr dayStr))); [|lia].
  unfold parseInt. simpl toString.
  destruct (parseInt_string dayStr) as [|d] eqn:Hday; simpl; [lia|].
  eapply parseInt_string_nonneg; [|done]. apply Hpieces. by left.
Qed.

Lemma dateToSortableNumber_nonneg_witness : 0 <= 124.
Proof.
  apply (dateToSortableNumber_nonneg (JStr (lit "Sat 24-Jan")) 124).
  reflexivity.
Defined.

Lemma dateToSortableNumber_token dayName dayStr monthStr :
  date_parts dayName dayStr monthStr ->
  dateToSortableNumber (JStr (date_token dayName dayStr monthStr))
  = Return (num_add (num_mul (month_or_zero monthStr) (Int 100))
                    (Int (num_or_zero (parseInt (JStr dayStr))))).
Proof.
  intros (Hn & Hd & Hm & Hd' & Hm').
  change (date_token dayName dayStr monthStr)
    with (dayName ++ 32%N :: (dayStr ++ 45%N :: monthStr)).
  rewrite dateToSortableNumber_shape; [|done|].
  - rewrite split_at by done. by rewrite split_without.
  - rewrite not_elem_of_app, not_elem_of_cons. by repeat split.
Qed.

(** X3. For two date texts whose months are in the table and whose days
    parse to numbers from 0 to 99, the sortable numbers are in calendar
    order: the earlier month first, and within a month the earlier day;
    month and day can be read back from the number. *)
Theorem dateToSortableNumber_calendar_order
    (name1 day1 month1 name2 day2 month2 : jsstring) (m1 d1 m2 d2 : Z) :
  date_parts name1 day1 month1 -> date_parts name2 day2 month2 ->
  assoc month1 months = Some m1 -> assoc month2 months = Some m2 ->
  parseInt (JStr day1) = Int d1 -> parseInt (JStr day2) = Int d2 ->
  0 <= d1 < 100 -> 0 <= d2 < 100 ->
  exists n1 n2,
    dateToSortableNumber (JStr (date_token name1 day1 month1))
      = Return (Int n1) /\
    dateToSortableNumber (JStr (date_token name2 day2 month2))
      = Return (Int n2) /\
    n1 / 100 = m1 /\ n1 mod 100 = d1 /\
    (n1 < n2 <-> m1 < m2 \/ (m1 = m2 /\ d1 < d2)) /\
    (n1 = n2 <-> m1 = m2 /\ d1 = d2).
Proof.
  intros Hparts1 Hparts2 Hm1 Hm2 Hd1 Hd2 Hr1 Hr2.
  exists (m1 * 100 + d1), (m2 * 100 + d2).
  rewrite !dateToSortableNumber_token by done.
  unfold month_or_zero. rewrite Hm1, Hm2, Hd1, Hd2. simpl.
  repeat split; try lia.
  - rewrite Z.add_comm, Z.div_add by lia. rewrite Z.div_small by lia. lia.
  - rewrite Z.add_comm, Z.mod_add by lia. by apply Z.mod_small.
Qed.

Lemma dateToSortableNumber_calendar_order_witness :
  exists n1 n2,
    dateToSortableNumber (JStr (lit "Sat 24-Jan")) = Return (Int n1) /\
    dateToSortableNumber (JStr (lit "Sun 1-Feb")) = Return (Int n2) /\
    n1 < n2.
Proof.
  destruct (dateToSortableNumber_calendar_order
              (lit "Sat") (lit "24") (lit "Jan")
              (lit "Sun") (lit "1") (lit "Feb") 1 24 2 1)
    as (n1 & n2 & H1 & H2 & _ & _ & Hlt & _);
    try reflexivity; try lia;
    try (repeat split; apply (bool_decide_unpack _); vm_compute;
         reflexivity).
  exists n1, n2. split; [exact H1|]. split; [exact H2|].
  apply Hlt. left. lia.
Defined.

(** ** The collation key *)

Lemma replaceAll_removes (c : N) (r s : jsstring) :
  c ∉ r -> c ∉ JsString.replaceAll c r s.
Proof.
  intros Hr. unfold JsString.replaceAll.
  induction s as [|x s IH]; simpl; [apply not_elem_of_nil|].
  rewrite not_elem_of_app. split; [|done].
  destruct (N.eqb_spec x c) as [->|Hne]; [done|].
  apply not_elem_of_cons. split; [done | apply not_elem_of_nil].
Qed.

Lemma replaceAll_keeps_out (c c' : N) (r s : jsstring) :
  c ∉ r -> c ∉ s -> c ∉ JsString.replaceAll c' r s.
Proof.
  intros Hr. unfold JsString.replaceAll.
  induction s as [|x s IH]; simpl; [done|].
  intros [Hx Hs]%not_elem_of_cons.
  rewrite not_elem_of_app. split; [|by apply IH].
  destruct (N.eqb x c'); [done|].
  apply not_elem_of_cons. split; [done | apply not_elem_of_nil].
Qed.

Lemma replaceAll_absent (c : N) (r s : jsstring) :
  c ∉ s -> JsString.replaceAll c r s = s.
Proof.
  unfold JsString.replaceAll.
  induction s as [|x s IH]; simpl; [done|].
  intros [Hx Hs]%not_elem_of_cons.
  destruct (N.eqb_spec x c) as [->|_]; [done|]. simpl. by rewrite IH.
Qed.

Lemma replacement_plain (c : N) (r : jsstring) :
  c ∈ diacritics -> r ∈ map snd replacements -> c ∉ r.
Proof.
  intros Hc Hr.
  assert (Forall (fun r => Forall (fun c => c ∉ r) diacritics)
            (map snd replacements)) as Hall.
  { repeat constructor; apply (bool_decide_unpack _); vm_compute;
      reflexivity. }
  rewrite Forall_forall in Hall. specialize (Hall r Hr).
  rewrite Forall_forall in Hall. by apply Hall.
Qed.

Lemma romanianSortKey_no_diacritics `{Runtime} (text : jsstring) (c : N) :
  c ∈ diacritics -> c ∉ romanianSortKey text.
Proof.
  intros Hc. unfold romanianSortKey.
  destruct (JsString.eqb text []); [apply not_elem_of_nil|].
  generalize (toLowerCase text). intros s.
  unfold replacements. cbn [fold_left].
  assert (forall r, r ∈ map snd replacements -> c ∉ r) as Hplain.
  { intros r Hr. by apply replacement_plain. }
  assert (forall c' r t, r ∈ map snd replacements -> c ∉ t ->
            c ∉ JsString.replaceAll c' r t) as Hkeep.
  { intros c' r t Hr Ht. apply replaceAll_keeps_out; auto. }
  assert (forall r t, r ∈ map snd replacements ->
            c ∉ JsString.replaceAll c r t) as Hgone.
  { intros r t Hr. apply replaceAll_removes; auto. }
  assert (lit "a~1" ∈ map snd replacements) as H1
    by (apply (bool_decide_unpack _); vm_compute; reflexivity).
  assert (lit "a~2" ∈ map snd replacements) as H2
    by (apply (bool_decide_unpack _); vm_compute; reflexivity).
  assert (lit "i~1" ∈ map snd replacements) as H3
    by (apply (bool_decide_unpack _); vm_compute; reflexivity).
  assert (lit "s~1" ∈ map snd replacements) as H4
    by (apply (bool_decide_unpack _); vm_compute; reflexivity).
  assert (lit "t~1" ∈ map snd replacements) as H5
    by (apply (bool_decide_unpack _); vm_compute; reflexivity).
  unfold diacritics in Hc.
  repeat (apply elem_of_cons in Hc as [->|Hc];
          [repeat first [ by apply Hgone | apply Hkeep; [done|] ]|]).
  exfalso. exact (proj1 (elem_of_nil c) Hc).
Qed.

Lemma flat_map_units (s : jsstring) : flat_map (fun x => [x]) s = s.
Proof. induction s as [|x s IH]; simpl; [done|]. by rewrite IH. Qed.

(** One pass over a text built unit by unit is a pass over each of its
    pieces. *)
Lemma replaceAll_flat_map (c : N) (r : jsstring) (f : N -> jsstring)
    (s : jsstring) :
  JsString.replaceAll c r (flat_map f s)
  = flat_map (fun x => JsString.replaceAll c r (f x)) s.
Proof.
  unfold JsString.replaceAll.
  induction s as [|x s IH]; simpl; [done|].
  by rewrite flat_map_app, IH.
Qed.

Lemma replacements_flat_map (table : list (N * jsstring))
    (f : N -> jsstring) (s : jsstring) :
  fold_left (fun result '(c, r) => JsString.replaceAll c r result) table
    (flat_map f s)
  = flat_map
      (fun x =>
         fold_left (fun result '(c, r) => JsString.replaceAll c r result)
           table (f x)) s.
Proof.
  revert f. induction table as [|[c r] table IH]; intros f; simpl; [done|].
  by rewrite replaceAll_flat_map, IH.
Qed.

(** The passes, run one after the other on a single unit, give the
    unit's entry in the table: no entry holds a letter that a later pass
    replaces. *)
Lemma replacements_unit (x : N) :
  fold_left (fun result '(c, r) => JsString.replaceAll c r result)
    replacements [x]
  = replacement_of x replacements.
Proof.
  unfold replacements, replacement_of.
  destruct (N.eqb_spec x 259) as [->|H259]; [reflexivity|].
  destruct (N.eqb_spec x 226) as [->|H226]; [reflexivity|].
  destruct (N.eqb_spec x 238) as [->|H238]; [reflexivity|].
  destruct (N.eqb_spec x 537) as [->|H537]; [reflexivity|].
  destruct (N.eqb_spec x 539) as [->|H539]; [reflexivity|].
  cbn [fold_left]. unfold JsString.replaceAll. cbn [flat_map app].
  repeat match goal with
         | |- context [N.eqb x ?k] =>
             destruct (N.eqb_spec x k) as [?|_]; [done|]; cbn [flat_map app]
         end.
  reflexivity.
Qed.

(** X4. Under any runtime, the key of a text that is not empty is its
    lower-case form in which every code unit with an entry in the table
    stands replaced by that entry (a-breve by [a~1], a-circumflex by
    [a~2], i-circumflex by [i~1], s-comma by [s~1], t-comma by [t~1])
    and every other code unit is kept; so the key holds none of the
    five letters. *)
Theorem romanianSortKey_plain `{Runtime} (text : jsstring) :
  text <> [] ->
  romanianSortKey text
  = flat_map (fun c => replacement_of c replacements) (toLowerCase text)
  /\ (forall c, c ∈ diacritics -> c ∉ romanianSortKey text)
  /\ map (fun c => replacement_of c replacements) diacritics
     = [lit "a~1"; lit "a~2"; lit "i~1"; lit "s~1"; lit "t~1"]
  /\ (forall c, c ∉ diacritics -> replacement_of c replacements = [c]).
Proof.
  intros Htext. split; [|split; [|split]].
  - unfold romanianSortKey, JsString.eqb.
    rewrite bool_decide_eq_false_2 by done.
    rewrite <- (flat_map_units (toLowerCase text)) at 1.
    rewrite replacements_flat_map. apply flat_map_ext.
    intros x. apply replacements_unit.
  - intros c. apply romanianSortKey_no_diacritics.
  - reflexivity.
  - intros c Hc. unfold diacritics in Hc.
    rewrite !not_elem_of_cons in Hc.
    destruct Hc as (H1 & H2 & H3 & H4 & H5 & _).
    unfold replacements, replacement_of.
    repeat match goal with
           | |- context [N.eqb c ?k] =>
               destruct (N.eqb_spec c k) as [?|_]; [done|]
           end.
    reflexivity.
Qed.

Lemma romanianSortKey_plain_witness :
  @romanianSortKey ReferenceRuntime.runtime [66; 258; 99; 259]%N
  = lit "ba~1ca~1".
Proof.
  destruct (@romanianSortKey_plain ReferenceRuntime.runtime
              [66; 258; 99; 259]%N ltac:(discriminate)) as [Hkey _].
  rewrite Hkey. vm_compute. reflexivity.
Defined.

(** X5. On a text whose lower-case form holds none of the five letters,
    the key is the lower-cased text itself. *)
Theorem romanianSortKey_lowercase `{Runtime} (text : jsstring) :
  text <> [] ->
  (forall c, c ∈ diacritics -> c ∉ toLowerCase text) ->
  romanianSortKey text = toLowerCase text.
Proof.
  intros Htext Hplain. unfold romanianSortKey, JsString.eqb.
  rewrite bool_decide_eq_false_2 by done.
  unfold replacements. cbn [fold_left].
  repeat rewrite (replaceAll_absent _ _ (toLowerCase text))
    by (apply Hplain, (bool_decide_unpack _); vm_compute; reflexivity).
  done.
Qed.

Lemma romanianSortKey_lowercase_witness :
  @romanianSortKey ReferenceRuntime.runtime (lit "Ana") = lit "ana".
Proof.
  apply (@romanianSortKey_lowercase ReferenceRuntime.runtime (lit "Ana")).
  - discriminate.
  - intros c Hc. apply (bool_decide_unpack _). unfold diacritics in Hc.
    repeat (apply elem_of_cons in Hc as [->|Hc]; [vm_compute; reflexivity|]).
    exfalso. exact (proj1 (elem_of_nil c) Hc).
Defined.

(** ** The order on strings *)

Lemma ltb_irrefl (s : jsstring) : JsString.ltb s s = false.
Proof.
  induction s as [|a s IH]; simpl; [done|].
  destruct (N.ltb_spec a a); [lia|done].
Qed.

Lemma ltb_asym (s t : jsstring) :
  JsString.ltb s t = true -> JsString.ltb t s = false.
Proof.
  revert t. induction s as [|a s IH]; intros [|b t]; simpl; try done.
  destruct (N.ltb_spec a b), (N.ltb_spec b a); try done; try lia.
  apply IH.
Qed.

Lemma ltb_le_trans (a b c : jsstring) :
  JsString.ltb b a = false -> JsString.ltb c b = false ->
  JsString.ltb c a = false.
Proof.
  revert b c. induction a as [|x a IH]; intros b c.
  - by destruct c.
  - destruct b as [|y b]; [done|]. destruct c as [|z c]; [done|].
    simpl.
    destruct (N.ltb_spec y x), (N.ltb_spec x y), (N.ltb_spec z y),
      (N.ltb_spec y z), (N.ltb_spec z x), (N.ltb_spec x z);
      try done; try lia.
    apply IH.
Qed.

Lemma ltb_total (s t : jsstring) :
  JsString.ltb s t = false -> JsString.ltb t s = false -> s = t.
Proof.
  revert t. induction s as [|a s IH]; intros [|b t]; simpl; try done.
  destruct (N.ltb_spec a b), (N.ltb_spec b a); try done; try lia.
  intros Hst Hts. f_equal; [lia | by apply IH].
Qed.

(** ** The comparator on every column *)

Section ComparatorSymmetry.
Context `{Runtime}.
Implicit Types (a b r : record) (data out : list record).

Lemma compareCompetitions_text column ascending a b :
  JsString.eqb column (lit "id") = false ->
  JsString.startsWith (lit "year_") column = false ->
  compareCompetitions column ascending a b =
    Return (Int (if JsString.ltb (textKey column a) (textKey column b)
                 then (if ascending then -1 else 1)
                 else if JsString.ltb (textKey column b) (textKey column a)
                 then (if ascending then 1 else -1)
                 else 0)).
Proof.
  intros Hid Hyear. unfold compareCompetitions, textKey.
  rewrite Hid, Hyear. by repeat destruct (JsString.ltb _ _).
Qed.

(** X6. On every column and in both directions the comparator is
    antisymmetric: when it returns for two records, it returns the
    opposite number for the two records swapped. *)
Theorem compareCompetitions_antisymmetric column ascending a b v :
  compareCompetitions column ascending a b = Return v ->
  compareCompetitions column ascending b a = Return (num_opp v).
Proof.
  destruct (JsString.eqb column (lit "id")) eqn:Hid.
  - unfold JsString.eqb in Hid. apply bool_decide_eq_true in Hid as ->.
    rewrite !compareCompetitions_id. intros [= <-]. simpl.
    do 2 f_equal. destruct ascending; lia.
  - destruct (JsString.startsWith (lit "year_") column) eqn:Hyear.
    + rewrite !compareCompetitions_year by done.
      destruct (dateKey column a) as [[|da]|]; simpl; [| |discriminate];
        (destruct (dateKey column b) as [[|db]|]; simpl; [| |discriminate]);
        try destruct da as [|pa|pa]; try destruct db as [|pb|pb];
        destruct ascending; simpl; intros [= <-]; try done;
        simpl; do 2 f_equal; lia.
    + rewrite !compareCompetitions_text by done. intros [= <-]. simpl.
      destruct (JsString.ltb (textKey column a) (textKey column b)) eqn:Hab.
      * rewrite (ltb_asym _ _ Hab). by destruct ascending.
      * destruct (JsString.ltb (textKey column b) (textKey column a));
          by destruct ascending.
Qed.

(** X7. Asking for the other direction is the same as swapping the two
    records, on the identifier column, on every text column, and on a
    year column as long as the two dates are both the sentinel or both
    not; when exactly one of them is the sentinel the result is the same
    in both directions instead. *)
Theorem compareCompetitions_direction column a b :
  (JsString.startsWith (lit "year_") column = false \/
   (forall da db, dateKey column a = Return da ->
                  dateKey column b = Return db ->
                  num_is_zero da = num_is_zero db) ->
   compareCompetitions column false a b = compareCompetitions column true b a)
  /\ (forall da db,
        JsString.startsWith (lit "year_") column = true ->
        dateKey column a = Return da -> dateKey column b = Return db ->
        num_is_zero da <> num_is_zero db ->
        compareCompetitions column false a b
        = compareCompetitions column true a b).
Proof.
  split.
  - intros Hcase.
    destruct (JsString.eqb column (lit "id")) eqn:Hid.
    { unfold JsString.eqb in Hid. apply bool_decide_eq_true in Hid as ->.
      by rewrite !compareCompetitions_id. }
    destruct (JsString.startsWith (lit "year_") column) eqn:Hyear.
    + destruct Hcase as [Hcase|Hcase]; [done|].
      rewrite !compareCompetitions_year by done.
      destruct (dateKey column a) as [da|]; simpl;
        (destruct (dateKey column b) as [db|]; simpl; [|done]); [|done].
      specialize (Hcase da db eq_refl eq_refl).
      rewrite Hcase.
      by destruct (num_is_zero db).
    + rewrite !compareCompetitions_text by done.
      destruct (JsString.ltb (textKey column a) (textKey column b)) eqn:Hab.
      * by rewrite (ltb_asym _ _ Hab).
      * by destruct (JsString.ltb (textKey column b) (textKey column a)).
  - intros da db Hyear Ha Hb Hzero.
    rewrite !compareCompetitions_year, Ha, Hb by done. simpl.
    destruct (num_is_zero da), (num_is_zero db); done.
Qed.

End ComparatorSymmetry.

Lemma compareCompetitions_antisymmetric_witness :
  @compareCompetitions ReferenceRuntime.runtime (lit "name") true
    Examples.undated Examples.dated = Return (Int 1).
Proof.
  apply (@compareCompetitions_antisymmetric ReferenceRuntime.runtime
           (lit "name") true Examples.dated Examples.undated (Int (-1))).
  vm_compute. reflexivity.
Defined.

Lemma compareCompetitions_direction_witness :
  @compareCompetitions ReferenceRuntime.runtime (lit "id") false
    Examples.dated Examples.undated
  = @compareCompetitions ReferenceRuntime.runtime (lit "id") true
      Examples.undated Examples.dated
  /\ @compareCompetitions ReferenceRuntime.runtime (lit "year_2025") false
       Examples.undated Examples.dated
     = @compareCompetitions ReferenceRuntime.runtime (lit "year_2025") true
         Examples.undated Examples.dated.
Proof.
  pose proof (@compareCompetitions_direction ReferenceRuntime.runtime)
    as Hdirection.
  split.
  - apply (proj1 (Hdirection (lit "id") Examples.dated Examples.undated)).
    left. reflexivity.
  - apply (proj2 (Hdirection (lit "year_2025")
                    Examples.undated Examples.dated) (Int 0) (Int 124));
      [reflexivity | reflexivity | reflexivity | discriminate].
Defined.

(** ** More on the sort *)

Section ArraySortMore.
Context {A : Type}.
Implicit Types (l : list A).

(** Sortedness when the comparator decides the relation on the elements
    of the input only. *)
Section SortedOn.
Variable comparefn : A -> A -> completion number.
Variable R : relation A.
Variable dom : A -> Prop.
Hypothesis R_trans : forall x y z, R x y -> R y z -> R x z.
Hypothesis compare_R : forall x y c, dom x -> dom y ->
  sortCompare comparefn x y = Return c ->
  if c <=? 0 then R x y else R y x.

Lemma sort_insert_sorted_on x l r :
  dom x -> Forall dom l ->
  StronglySorted R l ->
  sort_insert comparefn x l = Return r ->
  StronglySorted R r.
Proof.
  intros Hx. revert r.
  induction l as [|y l IH]; intros r Hdom Hsorted; simpl.
  - intros [= <-]. repeat constructor.
  - apply Forall_cons in Hdom as [Hy Hdom].
    apply StronglySorted_cons in Hsorted as [Hall Hsorted].
    destruct (sortCompare comparefn x y) as [c|] eqn:Hc; simpl;
      [|discriminate].
    pose proof (compare_R x y c Hx Hy Hc) as HR.
    destruct (c <=? 0).
    + intros [= <-]. constructor; [by constructor|].
      constructor; [done|].
      rewrite Forall_forall in Hall |- *.
      intros z Hz. apply (R_trans x y z); auto.
    + destruct (sort_insert comparefn x l) as [r'|] eqn:Hins; simpl;
        [|discriminate].
      intros [= <-]. constructor; [by eapply IH|].
      apply sort_insert_perm in Hins. rewrite <- Hins.
      by constructor.
Qed.

Lemma Array_sort_sorted_on l out :
  Forall dom l ->
  Array_sort comparefn l = Return out ->
  StronglySorted R out.
Proof.
  revert out. induction l as [|x l IH]; intros out Hdom; simpl.
  - intros [= <-]. constructor.
  - apply Forall_cons in Hdom as [Hx Hdom].
    destruct (Array_sort comparefn l) as [s|] eqn:Hs; simpl;
      [|discriminate].
    apply sort_insert_sorted_on; [done| |by apply IH].
    apply Array_sort_perm in Hs. by rewrite <- Hs.
Qed.
End SortedOn.

(** An array whose elements the comparator already finds in order is
    returned as it is. *)
Lemma Array_sort_in_order (comparefn : A -> A -> completion number) l :
  StronglySorted
    (fun x y => exists c, sortCompare comparefn x y = Return c /\ c <= 0) l ->
  Array_sort comparefn l = Return l.
Proof.
  induction 1 as [|x l Hsorted IH Hall]; simpl; [done|].
  rewrite IH. simpl. destruct l as [|y l]; [done|].
  apply Forall_cons in Hall as [(c & Hc & Hle) _]. simpl.
  rewrite Hc. simpl. destruct (Z.leb_spec c 0); [done|lia].
Qed.

End ArraySortMore.

(** ** Text columns *)

Section TextColumn.
Context `{Runtime}.
Variable column : jsstring.
Hypothesis Hid : JsString.eqb column (lit "id") = false.
Hypothesis Hyear : JsString.startsWith (lit "year_") column = false.
Implicit Types (a b r : record) (data out : list record).

Lemma sortCompetitions_text_returns data ascending :
  exists out, sortCompetitions data column ascending = Return out.
Proof.
  apply Array_sort_returns. intros a b _ _.
  rewrite compareCompetitions_text by done. eauto.
Qed.

Lemma sortCompetitions_text_ascending data out :
  sortCompetitions data column true = Return out ->
  StronglySorted
    (fun a b => JsString.ltb (textKey column b) (textKey column a) = false)
    out.
Proof.
  intros Hsort. eapply Array_sort_sorted; [| |done].
  - intros x y z Hxy Hyz. by eapply ltb_le_trans.
  - intros x y c. unfold sortCompare.
    rewrite compareCompetitions_text by done. simpl. intros [= <-].
    destruct (JsString.ltb (textKey column x) (textKey column y)) eqn:Hxy;
      simpl; [by apply ltb_asym|].
    by destruct (JsString.ltb (textKey column y) (textKey column x)).
Qed.

Lemma sortCompetitions_text_descending data out :
  sortCompetitions data column false = Return out ->
  StronglySorted
    (fun a b => JsString.ltb (textKey column a) (textKey column b) = false)
    out.
Proof.
  intros Hsort. eapply Array_sort_sorted; [| |done].
  - intros x y z Hxy Hyz. by eapply ltb_le_trans.
  - intros x y c. unfold sortCompare.
    rewrite compareCompetitions_text by done. simpl. intros [= <-].
    destruct (JsString.ltb (textKey column x) (textKey column y)) eqn:Hxy;
      simpl; [by apply ltb_asym|].
    by destruct (JsString.ltb (textKey column y) (textKey column x)).
Qed.

Lemma sortCompetitions_text_stable data ascending out key :
  sortCompetitions data column ascending = Return out ->
  filter (fun r => textKey column r = key) out
  = filter (fun r => textKey column r = key) data.
Proof.
  apply Array_sort_stable. intros x y c Hx Hy. unfold sortCompare.
  rewrite compareCompetitions_text, Hx, Hy, ltb_irrefl by done.
  simpl. intros [= <-]. lia.
Qed.
End TextColumn.

(** X8. On a column that is neither [id] nor a year column,
    [sortCompetitions] always returns; the keys built by
    [romanianSortKey] stand in the result in non-decreasing order when
    ascending and in non-increasing order when descending, and records
    with the same key keep their input order. *)
Theorem sortCompetitions_text_sorted `{Runtime} (column : jsstring)
    (data : list record) :
  JsString.eqb column (lit "id") = false ->
  JsString.startsWith (lit "year_") column = false ->
  exists asc desc,
    sortCompetitions data column true = Return asc /\
    sortCompetitions data column false = Return desc /\
    StronglySorted
      (fun a b => JsString.ltb (textKey column b) (textKey column a) = false)
      asc /\
    StronglySorted
      (fun a b => JsString.ltb (textKey column a) (textKey column b) = false)
      desc /\
    (forall key,
        filter (fun r => textKey column r = key) asc
          = filter (fun r => textKey column r = key) data /\
        filter (fun r => textKey column r = key) desc
          = filter (fun r => textKey column r = key) data).
Proof.
  intros Hid Hyear.
  destruct (sortCompetitions_text_returns column Hid Hyear data true)
    as [asc Hasc].
  destruct (sortCompetitions_text_returns column Hid Hyear data false)
    as [desc Hdesc].
  exists asc, desc. repeat split; try done.
  - by eapply sortCompetitions_text_ascending.
  - by eapply sortCompetitions_text_descending.
  - by eapply sortCompetitions_text_stable.
  - by eapply sortCompetitions_text_stable.
Qed.

Lemma sortCompetitions_text_sorted_witness :
  exists asc,
    @sortCompetitions ReferenceRuntime.runtime
      [Examples.undated; Examples.dated] (lit "name") true = Return asc /\
    StronglySorted
      (fun a b =>
         JsString.ltb (@textKey ReferenceRuntime.runtime (lit "name") b)
                      (@textKey ReferenceRuntime.runtime (lit "name") a)
         = false) asc.
Proof.
  destruct (@sortCompetitions_text_sorted ReferenceRuntime.runtime
              (lit "name") [Examples.undated; Examples.dated]
              eq_refl eq_refl)
    as (asc & desc & Hasc & _ & Hsorted & _).
  exists asc. split; [exact Hasc | exact Hsorted].
Defined.

(** ** Year columns with numeric dates *)

Lemma StronglySorted_weaken_on {A : Type} (R R' : relation A) (l : list A) :
  (forall x y, x ∈ l -> y ∈ l -> R x y -> R' x y) ->
  StronglySorted R l -> StronglySorted R' l.
Proof.
  intros Himpl Hsorted. induction Hsorted as [|x l Hsorted IH Hall].
  - constructor.
  - constructor.
    + apply IH. intros a b Ha Hb. apply Himpl; by right.
    + rewrite Forall_forall in Hall |- *. intros y Hy.
      apply Himpl; [by left | by right | by apply Hall].
Qed.

Section YearColumnOrder.
Context `{Runtime}.
Variable column : jsstring.
Hypothesis Hyear : JsString.startsWith (lit "year_") column = true.
Implicit Types (a b r : record) (data out : list record).

Lemma compareCompetitions_numeric ascending a b da db :
  dateKey column a = Return (Int da) ->
  dateKey column b = Return (Int db) ->
  sortCompare (compareCompetitions column ascending) a b =
    Return (if (da =? 0) && (db =? 0) then 0
            else if da =? 0 then 1
            else if db =? 0 then -1
            else if ascending then da - db else db - da).
Proof.
  intros Ha Hb. unfold sortCompare.
  rewrite compareCompetitions_year, Ha, Hb by done. simpl.
  destruct da as [|pa|pa], db as [|pb|pb]; simpl; try done;
    by destruct ascending.
Qed.

Lemma sortCompetitions_numeric_returns data ascending :
  Forall (numeric_date column) data ->
  exists out, sortCompetitions data column ascending = Return out.
Proof.
  intros Hnum. apply Array_sort_returns. intros a b Ha Hb.
  rewrite Forall_forall in Hnum.
  destruct (Hnum a Ha) as [da Hda], (Hnum b Hb) as [db Hdb].
  rewrite compareCompetitions_year, Hda, Hdb by done. simpl.
  destruct da as [|pa|pa], db as [|pb|pb]; simpl; eexists; reflexivity.
Qed.

Lemma sortCompetitions_numeric_sorted data ascending out :
  Forall (numeric_date column) data ->
  sortCompetitions data column ascending = Return out ->
  StronglySorted (date_order column ascending) out.
Proof.
  intros Hnum Hsort.
  eapply (Array_sort_sorted_on _ _ (numeric_date column)); [| |done|done].
  - intros x y z [Hxy0 Hxy] [Hyz0 Hyz]. split; [auto|].
    intros Hx Hz.
    assert (dateInt column y <> 0) as Hy by (intros Hy; auto).
    specialize (Hxy Hx Hy). specialize (Hyz Hy Hz).
    destruct ascending; lia.
  - intros x y c [dx Hx] [dy Hy].
    rewrite (compareCompetitions_numeric ascending x y dx dy) by done.
    intros [= <-]. unfold date_order, dateInt. rewrite Hx, Hy.
    destruct (Z.eqb_spec dx 0), (Z.eqb_spec dy 0); simpl; try lia.
    destruct ascending.
    + destruct (Z.leb_spec (dx - dy) 0); lia.
    + destruct (Z.leb_spec (dy - dx) 0); lia.
Qed.
End YearColumnOrder.

(** X9. On a year column whose dates are all numbers (date strings,
    empty or missing values), [sortCompetitions] returns an array of
    the same records in which the real dates come first, in
    non-decreasing order when ascending and in non-increasing order
    when descending, and the sentinel-dated records last. *)
Theorem sortCompetitions_year_sorted `{Runtime} (column : jsstring)
    (ascending : bool) (data : list record) :
  JsString.startsWith (lit "year_") column = true ->
  Forall (numeric_date column) data ->
  exists out,
    sortCompetitions data column ascending = Return out /\
    data ≡ₚ out /\
    StronglySorted (date_order column ascending) out.
Proof.
  intros Hyear Hnum.
  destruct (sortCompetitions_numeric_returns column Hyear data ascending Hnum)
    as [out Hout].
  exists out. split; [done|].
  split; [by apply Array_sort_perm in Hout|].
  by eapply sortCompetitions_numeric_sorted.
Qed.

Lemma sortCompetitions_year_sorted_witness :
  exists out,
    @sortCompetitions ReferenceRuntime.runtime
      [Examples.undated; Examples.dated] (lit "year_2025") false
    = Return out /\
    [Examples.undated; Examples.dated] ≡ₚ out /\
    StronglySorted (date_order (lit "year_2025") false) out.
Proof.
  apply (@sortCompetitions_year_sorted ReferenceRuntime.runtime
           (lit "year_2025") false [Examples.undated; Examples.dated]).
  - reflexivity.
  - repeat constructor; [exists 0 | exists 124]; reflexivity.
Defined.

(** X10. Sorting what [sortCompetitions] returned, by the same column
    and direction, returns it unchanged; on a year column this is for
    dates that are all numbers. *)
Theorem sortCompetitions_idempotent `{Runtime} (column : jsstring)
    (ascending : bool) (data out : list record) :
  (JsString.startsWith (lit "year_") column = true ->
   Forall (numeric_date column) data) ->
  sortCompetitions data column ascending = Return out ->
  sortCompetitions out column ascending = Return out.
Proof.
  intros Hnum Hsort. unfold sortCompetitions. apply Array_sort_in_order.
  destruct (JsString.eqb column (lit "id")) eqn:Hid.
  { unfold JsString.eqb in Hid. apply bool_decide_eq_true in Hid as ->.
    destruct ascending.
    - apply sortCompetitions_id_ascending in Hsort.
      eapply StronglySorted_weaken_on; [|done].
      intros x y _ _ Hxy. cbv beta in Hxy. unfold sortCompare.
      rewrite compareCompetitions_id. simpl. eexists. split; [reflexivity|].
      simpl. lia.
    - apply sortCompetitions_id_descending in Hsort.
      eapply StronglySorted_weaken_on; [|done].
      intros x y _ _ Hxy. cbv beta in Hxy. unfold sortCompare.
      rewrite compareCompetitions_id. simpl. eexists. split; [reflexivity|].
      simpl. lia. }
  destruct (JsString.startsWith (lit "year_") column) eqn:Hyear.
  - specialize (Hnum eq_refl).
    pose proof (Array_sort_perm _ _ _ Hsort) as Hperm.
    apply (sortCompetitions_numeric_sorted column Hyear) in Hsort; [|done].
    eapply StronglySorted_weaken_on; [|done].
    intros x y Hx Hy [Hzero Horder].
    rewrite Forall_forall in Hnum.
    destruct (Hnum x) as [dx Hdx]; [by rewrite Hperm|].
    destruct (Hnum y) as [dy Hdy]; [by rewrite Hperm|].
    rewrite (compareCompetitions_numeric column Hyear ascending x y dx dy)
      by done.
    eexists. split; [done|].
    unfold dateInt in Hzero, Horder. rewrite Hdx, Hdy in Hzero, Horder.
    destruct (Z.eqb_spec dx 0), (Z.eqb_spec dy 0); simpl; try lia.
    specialize (Horder ltac:(done) ltac:(done)). destruct ascending; lia.
  - destruct ascending.
    + apply (sortCompetitions_text_ascending column Hid Hyear) in Hsort.
      eapply StronglySorted_weaken_on; [|done].
      intros x y _ _ Hxy. cbv beta in Hxy. unfold sortCompare.
      rewrite compareCompetitions_text by done. simpl.
      eexists. split; [done|]. rewrite Hxy.
      by destruct (JsString.ltb (textKey column x) (textKey column y)).
    + apply (sortCompetitions_text_descending column Hid Hyear) in Hsort.
      eapply StronglySorted_weaken_on; [|done].
      intros x y _ _ Hxy. cbv beta in Hxy. unfold sortCompare.
      rewrite compareCompetitions_text by done. simpl.
      eexists. split; [done|]. rewrite Hxy.
      by destruct (JsString.ltb (textKey column y) (textKey column x)).
Qed.

Lemma sortCompetitions_idempotent_witness :
  @sortCompetitions ReferenceRuntime.runtime
    [Examples.dated; Examples.undated] (lit "year_2025") true
  = Return [Examples.dated; Examples.undated].
Proof.
  apply (@sortCompetitions_idempotent ReferenceRuntime.runtime
           (lit "year_2025") true [Examples.undated; Examples.dated]).
  - intros _. repeat constructor; [exists 0 | exists 124]; reflexivity.
  - vm_compute. reflexivity.
Defined.

(** ** Clicks on the table headers *)

Section Clicks.
Context `{Runtime}.
Implicit Types (p : page) (t : table) (col : jsstring).

Lemma header_click_state p t col :
  table_state t (header_click p (t, col)).1
  = select_column (table_state t p) col.
Proof.
  destruct t; unfold header_click, sortTable1, sortTable2, sortTable3;
    cbn [fst snd]; by destruct (sortCompetitions _ _ _).
Qed.

Lemma header_click_other_state p t t' col :
  t <> t' ->
  table_state t' (header_click p (t, col)).1 = table_state t' p.
Proof.
  intros Hne.
  destruct t, t'; try done;
    unfold header_click, sortTable1, sortTable2, sortTable3;
    cbn [fst snd]; by destruct (sortCompetitions _ _ _).
Qed.

Lemma header_click_other_body p t t' col :
  t <> t' ->
  table_body t' (header_click p (t, col)).1 = table_body t' p.
Proof.
  intros Hne.
  destruct t, t'; try done;
    unfold header_click, sortTable1, sortTable2, sortTable3;
    cbn [fst snd]; by destruct (sortCompetitions _ _ _).
Qed.

Lemma sortCompetitions_outcome (data : list record) col ascending :
  match sortCompetitions data col ascending with
  | Return out => data ≡ₚ out
  | Throw => JsString.startsWith (lit "year_") col = true
  end.
Proof.
  unfold sortCompetitions.
  destruct (Array_sort _ data) as [out|] eqn:Hsort.
  - by apply Array_sort_perm in Hsort.
  - apply Array_sort_throw in Hsort as (a & b & _ & _ & Hthrow).
    by apply compareCompetitions_throw in Hthrow as [Hyear _].
Qed.

Lemma header_clicks_cons p click clicks :
  header_clicks p (click :: clicks)
  = header_clicks (header_click p click).1 clicks.
Proof. reflexivity. Qed.

End Clicks.

(** X11. After any series of clicks on the headers of the three tables,
    the sort state of each table is what the clicks on that table alone
    make of it, and the rows of a table that was not clicked are as
    they were: clicks on one table never reach the state or the rows of
    another. *)
Theorem header_clicks_independent `{Runtime} (p : page)
    (clicks : list (table * jsstring)) (t : table) :
  table_state t (header_clicks p clicks)
  = fold_left select_column (clicks_on t clicks) (table_state t p)
  /\ (clicks_on t clicks = [] ->
      table_body t (header_clicks p clicks) = table_body t p).
Proof.
  revert p. induction clicks as [|[t' col] clicks IH]; intros p; [done|].
  rewrite header_clicks_cons. destruct (IH (header_click p (t', col)).1)
    as [Hstate Hbody].
  rewrite Hstate. unfold clicks_on in *.
  destruct (decide (t' = t)) as [->|Hne].
  - rewrite filter_cons_True by done. simpl.
    rewrite header_click_state. split; [done|]. discriminate.
  - rewrite filter_cons_False by done.
    rewrite header_click_other_state by done. split; [done|].
    intros Hnone. rewrite Hbody by done.
    by apply header_click_other_body.
Qed.

(** X12. A click whose sort returns leaves in the body of its table one
    row per record of the table's data (the one placeholder row when
    there is none), each row as wide as the table; a click whose sort
    throws leaves the body as it was, although the sort state has
    already moved, and this only happens on a year column. *)
Theorem header_click_rows `{Runtime} (p : page) (t : table)
    (col : jsstring) (body : list row) :
  table_body t p = Some body ->
  match (header_click p (t, col)).2 with
  | Return _ =>
      exists rows,
        table_body t (header_click p (t, col)).1 = Some rows /\
        length rows = Nat.max 1 (length (table_data t p)) /\
        (table_data t p <> [] ->
         Forall (fun cells => length cells = table_width t) rows)
  | Throw =>
      table_body t (header_click p (t, col)).1 = Some body /\
      table_state t (header_click p (t, col)).1
        = select_column (table_state t p) col /\
      JsString.startsWith (lit "year_") col = true
  end.
Proof.
  intros Hbody.
  assert (forall (data sorted : list record) n render,
            data ≡ₚ sorted ->
            (forall r, length (render r) = n) ->
            exists rows,
              populate n render (Some body) (Some sorted) = Some rows /\
              length rows = Nat.max 1 (length data) /\
              (data <> [] -> Forall (fun cells => length cells = n) rows))
    as Hrows.
  { intros data sorted n render Hperm Hwidth.
    destruct sorted as [|r sorted].
    - apply Permutation_nil_r in Hperm as ->.
      eexists. split; [reflexivity|]. by split.
    - destruct (populate_rows_width n render body (r :: sorted)
                  (map render (r :: sorted)) Hwidth) as [Hlen Hall];
        [done|done|].
      exists (map render (r :: sorted)). split; [done|].
      split; [|done]. rewrite Hlen, <- Hperm.
      destruct data; [by apply Permutation_nil in Hperm|simpl; lia]. }
  destruct t; cbn [table_body table_data table_state table_width] in *;
    unfold header_click, sortTable1, sortTable2, sortTable3;
    cbn [fst snd];
    match goal with
    | |- context [sortCompetitions ?d ?c ?a] =>
        pose proof (sortCompetitions_outcome d c a) as Hsort;
        destruct (sortCompetitions d c a) as [sorted|]
    end; simpl; rewrite ?Hbody;
    first [by apply Hrows | done].
Qed.

Lemma header_click_rows_witness :
  exists rows,
    table_body Table1
      (@header_click ReferenceRuntime.runtime
         MoreExamples.two_records_page (Table1, lit "id")).1 = Some rows /\
    length rows = 2%nat.
Proof.
  pose proof (@header_click_rows ReferenceRuntime.runtime
    MoreExamples.two_records_page Table1 (lit "id") [] eq_refl) as Hrows.
  assert ((@header_click ReferenceRuntime.runtime
    MoreExamples.two_records_page (Table1, lit "id")).2 = Return tt)
    as Hreturn by (vm_compute; reflexivity).
  rewrite Hreturn in Hrows. destruct Hrows as (rows & Hbody & Hlen & _).
  exists rows. split; [exact Hbody | exact Hlen].
Defined.

(** ** Cells and rows *)

Lemma int_toString_nonempty (n : Z) : int_toString n <> [].
Proof.
  destruct n as [|p|p]; [done| |done].
  apply uint_units_nonnil, Unsigned.to_uint_nonnil.
Qed.

Lemma toString_truthy_nonempty (v : JsVal) :
  truthy v = true -> toString v <> [].
Proof.
  destruct v as [| |b|n|s]; simpl; try done.
  - by intros ->.
  - intros _. apply int_toString_nonempty.
  - unfold JsString.eqb. by intros ?%negb_true_iff%bool_decide_eq_false.
Qed.

(** X13. A table cell is empty exactly when the field it shows is falsy:
    absent, [null], the empty string, 0 or [false]. So a missing value
    never shows as the text [undefined] or [null], and an identifier 0
    shows as nothing. *)
Theorem td_empty_iff_falsy (r : record) (key : jsstring) :
  (textContent (td r key) = [] <-> truthy (get r key) = false) /\
  (truthy (get r key) = true ->
   textContent (td r key) = toString (get r key)).
Proof.
  unfold td, or_else; simpl.
  destruct (truthy (get r key)) eqn:Htruthy.
  - pose proof (toString_truthy_nonempty _ Htruthy) as Hnonempty.
    assert (text_of (get r key) = toString (get r key)) as ->
      by (by destruct (get r key)).
    split; [|done]. split; [done|discriminate].
  - split; [done|discriminate].
Qed.

Lemma td_empty_iff_falsy_witness :
  textContent (td Examples.dated (lit "location")) = []
  /\ textContent (td Examples.dated (lit "id")) = lit "2".
Proof.
  split.
  - apply (proj1 (td_empty_iff_falsy Examples.dated (lit "location"))).
    reflexivity.
  - apply (proj2 (td_empty_iff_falsy Examples.dated (lit "id"))).
    reflexivity.
Defined.

(** ** More on the build badge *)

Section VersionChoice.
Implicit Types (v first : version) (rest versions : list version).

Lemma fold_later_version_unparsable rest first :
  parseInt (version_id first) = NaN ->
  fold_left later_version rest first = first.
Proof.
  intros Hnan. induction rest as [|x rest IH]; simpl; [done|].
  unfold later_version at 2. rewrite Hnan.
  by destruct (parseInt (version_id x)).
Qed.

Lemma fold_later_version_keeps rest v m :
  parseInt (version_id v) = Int m ->
  Forall (fun u => num_gtb (parseInt (version_id u)) (Int m) = false) rest ->
  fold_left later_version rest v = v.
Proof.
  intros Hm. induction 1 as [|x rest Hx Hrest IH]; simpl; [done|].
  unfold later_version at 2. by rewrite Hm, Hx.
Qed.

Lemma fold_later_version_reaches before v after first m :
  parseInt (version_id v) = Int m ->
  Forall (fun u => exists n, parseInt (version_id u) = Int n /\ n < m)
         (first :: before) ->
  fold_left later_version (before ++ v :: after) first
  = fold_left later_version after v.
Proof.
  intros Hm. revert first.
  induction before as [|x before IH]; intros first Hbefore.
  - apply Forall_cons in Hbefore as [(n & Hn & Hlt) _]. simpl.
    unfold later_version at 2. rewrite Hm, Hn. simpl.
    destruct (Z.gtb_spec m n); [done|lia].
  - apply Forall_cons in Hbefore as [(n & Hn & Hlt) Hbefore]. simpl.
    apply IH. apply Forall_cons in Hbefore as [(k & Hk & Hklt) Hbefore].
    constructor; [|done].
    unfold later_version. rewrite Hn, Hk. simpl.
    destruct (k >? n); eauto.
Qed.
End VersionChoice.

(** X14. The badge shows the first entry that has the greatest
    identifier: an entry whose parsed identifier [m] is above those of
    all entries before it, and is not exceeded by any entry after it
    (an identifier that does not parse never exceeds), is the one
    [latestVersion] returns. *)
Theorem latestVersion_first_greatest (before after : list version)
    (v : version) (m : Z) :
  parseInt (version_id v) = Int m ->
  Forall (fun u => exists n, parseInt (version_id u) = Int n /\ n < m)
         before ->
  Forall (fun u => num_gtb (parseInt (version_id u)) (Int m) = false)
         after ->
  latestVersion (before ++ v :: after) = Return v.
Proof.
  intros Hm Hbefore Hafter. unfold latestVersion.
  destruct before as [|first before]; simpl.
  - f_equal. by eapply fold_later_version_keeps.
  - rewrite (fold_later_version_reaches before v after first m) by done.
    f_equal. by eapply fold_later_version_keeps.
Qed.

Lemma latestVersion_first_greatest_witness :
  latestVersion Examples.three_versions
  = Return {| version_id := JStr (lit "12");
              date := {| year := 2026; month := 1; day := 24 |} |}.
Proof.
  apply (latestVersion_first_greatest
           [ {| version_id := JStr (lit "9");
                date := {| year := 2025; month := 3; day := 1 |} |} ]
           [ {| version_id := JStr (lit "10");
                date := {| year := 2025; month := 6; day := 30 |} |} ]
           _ 12).
  - reflexivity.
  - repeat constructor. exists 9. split; [reflexivity | lia].
  - repeat constructor.
Defined.

(** X15. When the identifier of the first entry does not parse as a
    number, that first entry is shown, whatever the identifiers of the
    entries after it. *)
Theorem latestVersion_first_unparsable (first : version)
    (rest : list version) :
  parseInt (version_id first) = NaN ->
  latestVersion (first :: rest) = Return first.
Proof.
  intros Hnan. unfold latestVersion. simpl.
  by rewrite fold_later_version_unparsable.
Qed.

Lemma latestVersion_first_unparsable_witness :
  latestVersion
    ({| version_id := JStr (lit "v1");
        date := {| year := 2024; month := 1; day := 1 |} |}
     :: Examples.three_versions)
  = Return {| version_id := JStr (lit "v1");
              date := {| year := 2024; month := 1; day := 1 |} |}.
Proof.
  apply latestVersion_first_unparsable. reflexivity.
Defined.

(** X16. When the fetch fails, the response is not ok, or the versions
    list is empty, both badges read [N/A] and the call returns, provided
    the page has both badges; a page without the date badge makes the
    call throw and changes nothing. *)
Theorem loadLastUpdateDate_not_available `{Runtime}
    (response : fetched (list version)) (b : badges) :
  response = FetchFailed \/ response = ResponseNotOk \/
  response = ResponseOk [] ->
  (is_Some (last_update_date b) -> is_Some (version_number b) ->
   loadLastUpdateDate response b =
     ({| last_update_date := Some (lit "N/A");
         version_number := Some (lit "N/A") |}, Return tt))
  /\ (last_update_date b = None ->
      loadLastUpdateDate response b = (b, Throw)).
Proof.
  intros Hresponse.
  assert (loadLastUpdateDate response b = show_not_available b) as ->
    by (by destruct Hresponse as [->|[->| ->]]).
  unfold show_not_available. split.
  - by intros [d ->] [n ->].
  - by intros ->.
Qed.

Lemma loadLastUpdateDate_not_available_witness :
  @loadLastUpdateDate ReferenceRuntime.runtime (ResponseOk [])
    {| last_update_date := Some []; version_number := Some [] |}
  = ({| last_update_date := Some (lit "N/A");
        version_number := Some (lit "N/A") |}, Return tt).
Proof.
  apply (proj1 (@loadLastUpdateDate_not_available ReferenceRuntime.runtime
                  (ResponseOk [])
                  {| last_update_date := Some []; version_number := Some [] |}
                  (or_intror (or_intror eq_refl))));
    by eexists.
Defined.

(** ** More on the statistics page *)

(** X17. The county series reads the 42 known county codes and nothing
    else: two snapshots whose county statistics for the year agree on
    those codes give the same series, whatever other codes they hold. *)
Theorem chart_county_known_codes_only (jsonData1 jsonData2 : statistics)
    (year : Z) (by_county1 by_county2 : gmap jsstring JsVal) :
  competitions_by_county jsonData1 !! int_toString year = Some by_county1 ->
  competitions_by_county jsonData2 !! int_toString year = Some by_county2 ->
  (forall code, code ∈ map snd county_keys ->
                by_county1 !! code = by_county2 !! code) ->
  chart_county (charts_by_year jsonData1 year)
  = chart_county (charts_by_year jsonData2 year).
Proof.
  intros H1 H2 Hagree. unfold charts_by_year; cbn [chart_county].
  rewrite H1, H2. apply map_ext_in. intros [hc_key code] Hin.
  unfold get. rewrite Hagree; [done|].
  apply list_elem_of_In, in_map_iff. by exists (hc_key, code).
Qed.

Lemma chart_county_known_codes_only_witness :
  chart_county (charts_by_year Examples.two_counties 2025)
  = chart_county
      (charts_by_year
         {| total_competitions := ∅; competitions_by_month := ∅;
            competitions_by_type := ∅;
            competitions_by_county :=
              {[ lit "2025" :=
                   {[ lit "AB" := JNum 3; lit "B" := JNum 10;
                      lit "XX" := JNum 7 ]} ]};
            competitions_by_towns := ∅ |} 2025).
Proof.
  apply (chart_county_known_codes_only _ _ 2025
           {[ lit "AB" := JNum 3; lit "B" := JNum 10 ]}
           {[ lit "AB" := JNum 3; lit "B" := JNum 10; lit "XX" := JNum 7 ]});
    [reflexivity | reflexivity |].
  intros code Hcode. unfold county_keys in Hcode. simpl in Hcode.
  repeat (apply elem_of_cons in Hcode as [->|Hcode];
          [vm_compute; reflexivity|]).
  exfalso. exact (proj1 (elem_of_nil code) Hcode).
Defined.

(** X18. A click on a theme button of the statistics page, once a year
    has been drawn, draws the charts of the same year from the same data
    again, now in the colours of the theme the click has set: the dark
    colours exactly when the choice was [dark], or [auto] on a system
    that prefers dark. When no data was loaded, or the year is 0, the
    listener draws nothing and the charts keep the colours they had. *)
Theorem theme_click_repaints (theme : jsstring) (env : theme_env)
    (v : chart_view) :
  theme ∈ [lit "light"; lit "dark"; lit "auto"] ->
  let after := theme_click_on_statistics theme (env, v) in
  view_page after.2 = on_themeChanged (view_page v) /\
  (forall jsonData,
      currentJsonData (view_page v) = Some jsonData ->
      currentYear (view_page v) <> 0 ->
      drawn (view_page after.2)
      = Some (charts_by_year jsonData (currentYear (view_page v))) /\
      view_colors after.2 = Some (getThemeColors after.1) /\
      (view_colors after.2
       = Some (getThemeColors
                 {| stored_theme := None; prefers_dark := true;
                    data_bs_theme := Some (lit "dark") |})
       <-> theme = lit "dark"
           \/ (theme = lit "auto" /\ prefers_dark env = true))) /\
  (currentJsonData (view_page v) = None \/ currentYear (view_page v) = 0 ->
   after.2 = v).
Proof.
  intros Htheme after.
  unfold after, theme_click_on_statistics, redraw_on_themeChanged,
    on_themeChanged. cbn [fst snd].
  split; [|split].
  - destruct (currentJsonData (view_page v)) as [jsonData|]; [|done].
    by destruct (currentYear (view_page v) =? 0).
  - intros jsonData -> Hyear.
    destruct (Z.eqb_spec (currentYear (view_page v)) 0) as [|_]; [done|].
    unfold draw_charts. cbn [view_page view_colors].
    split; [done|]. split; [done|].
    repeat (apply elem_of_cons in Htheme as [->|Htheme]);
      [..|by apply elem_of_nil in Htheme];
      destruct env as [stored [] attribute];
      (split; [vm_compute; intros Heq; try discriminate; auto
              |intros [Heq|[Heq Hdark]]; try discriminate; reflexivity]).
  - intros [-> | ->]; [done|].
    by destruct (currentJsonData (view_page v)).
Qed.

Lemma theme_click_repaints_witness :
  view_colors
    (theme_click_on_statistics (lit "dark")
       (MoreExamples.dark_system,
        {| view_page :=
             update_charts_by_year Examples.two_counties 2025
               Examples.blank_page;
           view_colors := None |})).2
  = Some (getThemeColors
            {| stored_theme := None; prefers_dark := true;
               data_bs_theme := Some (lit "dark") |}).
Proof.
  apply (proj1 (proj2 (theme_click_repaints (lit "dark")
                         MoreExamples.dark_system
                         {| view_page :=
                              update_charts_by_year Examples.two_counties
                                2025 Examples.blank_page;
                            view_colors := None |}
                         ltac:(apply (bool_decide_unpack _); vm_compute;
                               reflexivity)))
           Examples.two_counties eq_refl ltac:(discriminate)).
  left. reflexivity.
Defined.

(** X19. When the fetch of a newly selected year fails, the dropdown
    shows the new year while the charts and the retained data stay
    those of the year drawn before; a theme change then redraws that
    earlier year and puts its number back in the dropdown. *)
Theorem change_data_failed (response : fetched statistics) (year : Z)
    (p : stats_page) (jsonData : statistics) :
  response = FetchFailed \/ response = ResponseNotOk ->
  currentJsonData p = Some jsonData -> currentYear p <> 0 ->
  let p' := change_data response year p in
  text_year p' = int_toString year /\
  drawn p' = drawn p /\
  currentYear p' = currentYear p /\
  currentJsonData p' = currentJsonData p /\
  on_themeChanged p' = update_charts_by_year jsonData (currentYear p) p /\
  text_year (on_themeChanged p') = int_toString (currentYear p).
Proof.
  intros Hresponse Hdata Hyear p'.
  assert (p' = {| currentYear := currentYear p;
                  currentJsonData := currentJsonData p;
                  text_year := int_toString year;
                  drawn := drawn p |}) as ->
    by (by destruct Hresponse as [->| ->]).
  repeat split; unfold on_themeChanged; simpl; rewrite Hdata;
    by destruct (Z.eqb_spec (currentYear p) 0).
Qed.

Lemma change_data_failed_witness :
  text_year
    (change_data FetchFailed 2024
       (update_charts_by_year Examples.two_counties 2025
          Examples.blank_page)) = lit "2024"
  /\ text_year
       (on_themeChanged
          (change_data FetchFailed 2024
             (update_charts_by_year Examples.two_counties 2025
                Examples.blank_page))) = lit "2025".
Proof.
  destruct (change_data_failed FetchFailed 2024
              (update_charts_by_year Examples.two_counties 2025
                 Examples.blank_page)
              Examples.two_counties (or_introl eq_refl) eq_refl)
    as (Hlabel & _ & _ & _ & _ & Hback).
  - discriminate.
  - split; [exact Hlabel | exact Hback].
Defined.

(** ** More on the bad-news page *)

(** X20. On calendar dates (months 1 to 12, days 1 to 31) of years up
    to 900000000000 in absolute value, where the number is computed
    without rounding, [dateToNumber] keeps the calendar order: one date
    is before another exactly when its number is smaller, and two dates
    have the same number only if they are the same date. *)
Theorem dateToNumber_order (a b : date_obj) :
  calendar_fields a -> calendar_fields b ->
  exact_year a -> exact_year b ->
  (dateToNumber a < dateToNumber b <-> date_before a b) /\
  (dateToNumber a = dateToNumber b -> a = b).
Proof.
  unfold calendar_fields, dateToNumber, date_before.
  destruct a as [ya ma da], b as [yb mb db]; simpl.
  intros [Hma Hda] [Hmb Hdb] _ _. split; [lia|].
  intros Heq. assert (ya = yb /\ ma = mb /\ da = db) as (-> & -> & ->) by lia.
  done.
Qed.

Lemma dateToNumber_order_witness :
  dateToNumber (original_date Examples.january)
  < dateToNumber (original_date Examples.june).
Proof.
  apply (proj1 (dateToNumber_order (original_date Examples.january)
                  (original_date Examples.june)
                  ltac:(vm_compute; intuition discriminate)
                  ltac:(vm_compute; intuition discriminate)
                  ltac:(vm_compute; intuition discriminate)
                  ltac:(vm_compute; intuition discriminate))).
  right. split; [reflexivity|]. left. reflexivity.
Defined.

Section NewsOrder.
Implicit Types (l sorted : list news).

Lemma sortCompare_news a b :
  sortCompare compareNews a b
  = Return (dateToNumber (original_date b) - dateToNumber (original_date a)).
Proof. reflexivity. Qed.

Lemma Array_sort_news_returns l :
  exists sorted, Array_sort compareNews l = Return sorted.
Proof. apply Array_sort_returns. intros a b _ _. by eexists. Qed.

Lemma Array_sort_news_sorted l sorted :
  Array_sort compareNews l = Return sorted ->
  StronglySorted
    (fun a b => dateToNumber (original_date b)
                <= dateToNumber (original_date a)) sorted.
Proof.
  intros Hsort. eapply Array_sort_sorted; [| |done].
  - intros x y z. lia.
  - intros x y c. rewrite sortCompare_news. intros [= <-].
    destruct (Z.leb_spec
                (dateToNumber (original_date y)
                 - dateToNumber (original_date x)) 0); lia.
Qed.

Lemma Array_sort_news_again sorted :
  StronglySorted
    (fun a b => dateToNumber (original_date b)
                <= dateToNumber (original_date a)) sorted ->
  Array_sort compareNews sorted = Return sorted.
Proof.
  intros Hsorted. apply Array_sort_in_order.
  eapply StronglySorted_weaken_on; [|done].
  intros x y _ _ Hxy. cbv beta in Hxy. rewrite sortCompare_news.
  eexists. split; [reflexivity | lia].
Qed.
End NewsOrder.

(** X21. Given a fetched array, [update_bad_news_table] returns; the
    array behind the reference then holds the same events, latest
    original date first, events of the same date in their fetched
    order; the table, if the page has one, shows one row per event in
    that order; no other array of the store is touched; and running it
    again changes nothing more. *)
Theorem update_bad_news_table_sorted `{Runtime} (h : gmap nat (list news))
    (bad_news : nat) (table : option (list news_row))
    (fetched_list : list news) :
  h !! bad_news = Some fetched_list ->
  exists sorted,
    update_bad_news_table h bad_news table
    = Return (<[bad_news := sorted]> h,
              match table with
              | Some _ => Some (map createBadNewsRow sorted)
              | None => None
              end) /\
    fetched_list ≡ₚ sorted /\
    StronglySorted
      (fun a b => dateToNumber (original_date b)
                  <= dateToNumber (original_date a)) sorted /\
    (forall n,
        filter (fun a => dateToNumber (original_date a) = n) sorted
        = filter (fun a => dateToNumber (original_date a) = n)
            fetched_list) /\
    (forall other, other <> bad_news ->
        <[bad_news := sorted]> h !! other = h !! other) /\
    update_bad_news_table (<[bad_news := sorted]> h) bad_news table
    = Return (<[bad_news := sorted]> h,
              match table with
              | Some _ => Some (map createBadNewsRow sorted)
              | None => None
              end).
Proof.
  intros Hfetched.
  destruct (Array_sort_news_returns fetched_list) as [sorted Hsort].
  pose proof (Array_sort_news_sorted _ _ Hsort) as Hsorted.
  exists sorted. repeat split.
  - unfold update_bad_news_table, sort_in_place.
    rewrite Hfetched, Hsort. simpl. by rewrite lookup_insert_eq.
  - by eapply Array_sort_perm.
  - done.
  - intros n. eapply Array_sort_stable; [|done].
    intros x y c Hx Hy. rewrite sortCompare_news. intros [= <-]. lia.
  - intros other Hother. by rewrite lookup_insert_ne.
  - unfold update_bad_news_table, sort_in_place.
    rewrite lookup_insert_eq, (Array_sort_news_again _ Hsorted). simpl.
    by rewrite insert_insert_eq, lookup_insert_eq.
Qed.

Lemma update_bad_news_table_sorted_witness :
  exists sorted,
    @update_bad_news_table ReferenceRuntime.runtime
      Examples.fetched_news 0 None
    = Return (<[0%nat := sorted]> Examples.fetched_news, None) /\
    [Examples.january; Examples.june] ≡ₚ sorted.
Proof.
  destruct (@update_bad_news_table_sorted ReferenceRuntime.runtime
              Examples.fetched_news 0 None
              [Examples.january; Examples.june] eq_refl)
    as (sorted & Hrun & Hperm & _).
  exists sorted. split; [exact Hrun | exact Hperm].
Defined.

(** ** Navigation *)

Lemma last_split_without (sep : N) (s : jsstring) :
  sep ∉ default [] (last (JsString.split sep s)).
Proof.
  destruct (last (JsString.split sep s)) as [piece|] eqn:Hlast; simpl.
  - apply (split_pieces_without sep s). by eapply last_Some_elem_of.
  - apply not_elem_of_nil.
Qed.

Lemma split_ends_with (sep : N) (dir file : jsstring) :
  sep ∉ file ->
  exists pieces,
    pieces <> [] /\
    JsString.split sep (dir ++ sep :: file) = pieces ++ [file].
Proof.
  intros Hfile. induction dir as [|c dir IH]; simpl.
  - exists [[]]. rewrite N.eqb_refl, split_without by done. by split.
  - destruct IH as (pieces & Hpieces & ->).
    destruct (N.eqb c sep).
    + exists ([] :: pieces). by split.
    + destruct pieces as [|p pieces]; [done|].
      exists ((c :: p) :: pieces). by split.
Qed.

Lemma split_last_at (sep : N) (dir file : jsstring) :
  sep ∉ file ->
  last (JsString.split sep (dir ++ sep :: file)) = Some file.
Proof.
  intros Hfile.
  destruct (split_ends_with sep dir file Hfile) as (pieces & _ & ->).
  apply last_snoc.
Qed.

(** X22. [getCurrentPage] never returns an empty name nor a name with a
    slash in it: a path ["<dir>/<file>"] gives [file], and a path that
    ends in a slash gives [index.html]. *)
Theorem getCurrentPage_file (pathname : jsstring) :
  getCurrentPage pathname <> [] /\
  (47%N ∉ getCurrentPage pathname) /\
  (forall dir file,
      pathname = dir ++ lit "/" ++ file -> (47%N ∉ file) ->
      getCurrentPage pathname = if JsString.eqb file [] then lit "index.html"
                                else file).
Proof.
  unfold getCurrentPage. repeat split.
  - unfold JsString.eqb. case_bool_decide as Hpage; [done|done].
  - unfold JsString.eqb. case_bool_decide as Hpage.
    + apply (bool_decide_unpack _). vm_compute. reflexivity.
    + apply last_split_without.
  - intros dir file -> Hfile.
    change (dir ++ lit "/" ++ file) with (dir ++ 47%N :: file).
    by rewrite split_last_at.
Qed.

Lemma getCurrentPage_file_witness :
  getCurrentPage (lit "/calendar/park.html") = lit "park.html"
  /\ getCurrentPage (lit "/calendar/") = lit "index.html".
Proof.
  split.
  - apply (proj2 (proj2 (getCurrentPage_file (lit "/calendar/park.html")))
             (lit "/calendar") (lit "park.html")); [reflexivity|].
    apply (bool_decide_unpack _). vm_compute. reflexivity.
  - apply (proj2 (proj2 (getCurrentPage_file (lit "/calendar/")))
             (lit "/calendar") []); [reflexivity|].
    apply not_elem_of_nil.
Defined.

Lemma navLinks_active (pages : list nav_page) (currentPage : jsstring)
    (item : nav_item) :
  item ∈ navLinks pages currentPage -> nav_active item = true ->
  exists page, page ∈ pages /\ page_link page = JStr currentPage /\
               item = createNavLink page true.
Proof.
  unfold navLinks. intros Hin Hactive.
  apply list_elem_of_In, in_map_iff in Hin as (page & <- & Hpage).
  simpl in Hactive. apply bool_decide_eq_true in Hactive.
  exists page. split; [by apply list_elem_of_In|]. split; [done|].
  unfold createNavLink. by rewrite bool_decide_eq_true_2.
Qed.

(** X23. The navigation bar has one link per page of the document, in
    its order; a link is marked active exactly when its page's link is
    the current page's name; and when the links of the pages are
    pairwise different, at most one link is active. *)
Theorem navLinks_one_active (pages : list nav_page)
    (currentPage : jsstring) :
  length (navLinks pages currentPage) = length pages /\
  (forall i page,
      pages !! i = Some page ->
      exists item,
        navLinks pages currentPage !! i = Some item /\
        nav_href item = toString (page_link page) /\
        nav_label item = toString (page_name page) /\
        (nav_active item = true <-> page_link page = JStr currentPage)) /\
  (NoDup (map page_link pages) ->
   forall i j a b,
     navLinks pages currentPage !! i = Some a ->
     navLinks pages currentPage !! j = Some b ->
     nav_active a = true -> nav_active b = true -> i = j).
Proof.
  unfold navLinks. change (map ?f pages) with (f <$> pages).
  split; [by rewrite length_fmap|]. split.
  - intros i page Hi. rewrite list_lookup_fmap, Hi. simpl.
    eexists. split; [done|]. split; [done|]. split; [done|].
    simpl. apply bool_decide_eq_true.
  - intros Hdistinct i j a b.
    rewrite !list_lookup_fmap.
    destruct (pages !! i) as [pa|] eqn:Hi; [|done].
    destruct (pages !! j) as [pb|] eqn:Hj; [|done].
    simpl. intros [= <-] [= <-]. simpl.
    intros Ha%bool_decide_eq_true Hb%bool_decide_eq_true.
    eapply NoDup_lookup; [exact Hdistinct| |].
    + rewrite list_lookup_fmap, Hi. simpl. by rewrite Ha.
    + rewrite list_lookup_fmap, Hj. simpl. by rewrite Hb.
Qed.


Lemma navLinks_one_active_witness :
  (exists item,
      navLinks MoreExamples.two_pages (lit "park.html") !! 1%nat = Some item
      /\ nav_active item = true)
  /\ (forall a b,
        navLinks MoreExamples.two_pages (lit "park.html") !! 1%nat = Some a ->
        navLinks MoreExamples.two_pages (lit "park.html") !! 1%nat = Some b ->
        nav_active a = true -> nav_active b = true -> 1%nat = 1%nat).
Proof.
  pose proof (navLinks_one_active MoreExamples.two_pages (lit "park.html"))
    as (_ & Hlinks & Hone).
  split.
  - destruct (Hlinks 1%nat _ eq_refl) as (item & Hitem & _ & _ & Hactive).
    exists item. split; [exact Hitem|]. apply Hactive. reflexivity.
  - apply Hone. apply (bool_decide_unpack _). vm_compute. reflexivity.
Defined.

(** ** The theme switcher *)

Lemma system_theme_cases (env : theme_env) :
  system_theme env = (if prefers_dark env then lit "dark" else lit "light").
Proof. reflexivity. Qed.

(** X24. Clicking one of the three theme buttons stores the choice and
    sets the document's theme to [light] or [dark], never to [auto];
    the charts then get the dark palette exactly when the choice was
    [dark], or [auto] on a system that prefers dark. *)
Theorem theme_click_applies (theme : jsstring) (env : theme_env) :
  theme ∈ [lit "light"; lit "dark"; lit "auto"] ->
  stored_theme (theme_click theme env) = Some theme /\
  (data_bs_theme (theme_click theme env) = Some (lit "light") \/
   data_bs_theme (theme_click theme env) = Some (lit "dark")) /\
  (getThemeColors (theme_click theme env)
   = getThemeColors {| stored_theme := None; prefers_dark := true;
                       data_bs_theme := Some (lit "dark") |}
   <-> theme = lit "dark" \/ (theme = lit "auto" /\ prefers_dark env = true)).
Proof.
  intros Htheme.
  repeat (apply elem_of_cons in Htheme as [->|Htheme]);
    [..|by apply elem_of_nil in Htheme];
    (split; [reflexivity|]); destruct env as [stored [] attr];
    (split; [vm_compute; auto|]);
    (split; [vm_compute; intros Heq; try discriminate; auto
            |intros [Heq|[Heq Hdark]]; try discriminate; reflexivity]).
Qed.

Lemma theme_click_applies_witness :
  data_bs_theme (theme_click (lit "auto") MoreExamples.dark_system)
  = Some (lit "light")
  \/ data_bs_theme (theme_click (lit "auto") MoreExamples.dark_system)
     = Some (lit "dark").
Proof.
  apply (theme_click_applies (lit "auto") MoreExamples.dark_system).
  apply (bool_decide_unpack _). vm_compute. reflexivity.
Defined.

Lemma system_preference_changed_stored dark env :
  stored_theme (system_preference_changed dark env) = stored_theme env.
Proof.
  unfold system_preference_changed. by destruct (_ || _).
Qed.

(** X25. Changes of the system preference never touch the stored
    choice. With [light] or [dark] stored they leave the document's
    theme alone; with [auto] stored, or nothing stored, the document's
    theme after a series of changes is the system's latest
    preference. *)
Theorem system_preference_changes (env : theme_env) (changes : list bool) :
  let env' :=
    fold_left (fun e dark => system_preference_changed dark e) changes env in
  stored_theme env' = stored_theme env /\
  (stored_theme env = Some (lit "light") \/
   stored_theme env = Some (lit "dark") ->
   data_bs_theme env' = data_bs_theme env) /\
  (stored_theme env = Some (lit "auto") \/ stored_theme env = None ->
   forall earlier dark, changes = earlier ++ [dark] ->
     data_bs_theme env' = Some (if dark then lit "dark" else lit "light")).
Proof.
  simpl. split; [|split].
  - revert env. induction changes as [|d changes IH]; intros env; [done|].
    simpl. by rewrite IH, system_preference_changed_stored.
  - revert env. induction changes as [|d changes IH]; intros env Hstored;
      [done|].
    simpl. rewrite IH.
    + unfold system_preference_changed, getStoredTheme. simpl.
      by destruct Hstored as [-> | ->].
    + by rewrite system_preference_changed_stored.
  - intros Hstored earlier dark ->. rewrite fold_left_app. simpl.
    set (before := fold_left _ earlier env).
    assert (stored_theme before = stored_theme env) as Hbefore.
    { unfold before. clear. revert env.
      induction earlier as [|d earlier IH]; intros env; [done|].
      simpl. by rewrite IH, system_preference_changed_stored. }
    unfold system_preference_changed, getStoredTheme, getPreferredTheme,
      getStoredTheme, setTheme, system_theme. simpl.
    rewrite Hbefore. destruct Hstored as [-> | ->]; by destruct dark.
Qed.

Lemma system_preference_changes_witness :
  data_bs_theme
    (fold_left (fun e dark => system_preference_changed dark e)
       [false; true] (theme_click (lit "light") MoreExamples.dark_system))
  = Some (lit "light")
  /\ data_bs_theme
       (fold_left (fun e dark => system_preference_changed dark e)
          [true; false] (theme_click (lit "auto") MoreExamples.dark_system))
     = Some (lit "light").
Proof.
  split.
  - apply (proj1 (proj2 (system_preference_changes
                           (theme_click (lit "light")
                              MoreExamples.dark_system) [false; true]))).
    left. reflexivity.
  - apply (proj2 (proj2 (system_preference_changes
                           (theme_click (lit "auto")
                              MoreExamples.dark_system) [true; false]))
             (or_introl eq_refl) [true] false).
    reflexivity.
Defined.

(** X26. A choice made by a click holds across page loads: on a later
    load with the same storage and the same system preference, the
    document gets the theme the click gave it. On a first visit, with
    nothing stored, it gets the system's theme. *)
Theorem theme_persists (theme : jsstring) (env : theme_env)
    (attribute : option jsstring) :
  (theme <> [] ->
   data_bs_theme
     (theme_on_load
        {| stored_theme := stored_theme (theme_click theme env);
           prefers_dark := prefers_dark env;
           data_bs_theme := attribute |})
   = data_bs_theme (theme_click theme env))
  /\ (stored_theme env = None ->
      data_bs_theme (theme_on_load env) = Some (system_theme env)).
Proof.
  split.
  - intros Htheme.
    unfold theme_on_load, theme_click, setTheme, setStoredTheme,
      getPreferredTheme, getStoredTheme, system_theme, JsString.eqb. simpl.
    rewrite (bool_decide_eq_false_2 (theme = [])) by done. done.
  - intros Hstored.
    unfold theme_on_load, setTheme, getPreferredTheme, getStoredTheme.
    rewrite Hstored. simpl. unfold system_theme.
    by destruct (prefers_dark env).
Qed.

Lemma theme_persists_witness :
  data_bs_theme
    (theme_on_load
       {| stored_theme :=
            stored_theme (theme_click (lit "dark") MoreExamples.dark_system);
          prefers_dark := true;
          data_bs_theme := None |})
  = Some (lit "dark").
Proof.
  apply (proj1 (theme_persists (lit "dark") MoreExamples.dark_system None)).
  discriminate.
Defined.

(** ** The home page *)

Lemma render_event_returns full c next row :
  render_event full c next = Return row ->
  data_month row = toString (ev_month c) /\
  name_cell row = competitionNameCell full c /\
  (last_of_month row = true <->
   exists n, next = Some n /\ ev_month c <> ev_month n) /\
  (full = false -> distances_cell row = None) /\
  (full = true ->
   exists ds, ev_distances c = Some ds /\
              distances_cell row = Some (map toString ds)).
Proof.
  unfold render_event. intros Hrow.
  assert (exists cell,
             row = {| last_of_month :=
                        match next with
                        | Some n => negb (bool_decide (ev_month c = ev_month n))
                        | None => false
                        end;
                      data_month := toString (ev_month c);
                      date_cell := toString (ev_display_date c);
                      name_cell := competitionNameCell full c;
                      location_cell := locationCell c;
                      county_cell := toString (ev_county c);
                      type_cell := toString (ev_type c);
                      distances_cell := cell |}
             /\ (full = false -> cell = None)
             /\ (full = true ->
                 exists ds, ev_distances c = Some ds
                            /\ cell = Some (map toString ds)))
    as (cell & -> & Hold & Hfull).
  { destruct full; [destruct (ev_distances c) as [ds|]|]; simpl in Hrow;
      try discriminate; injection Hrow as <-; eexists;
      (split; [reflexivity|]); split; try discriminate; eauto. }
  cbn [data_month name_cell last_of_month distances_cell].
  repeat split; try done.
  - destruct next as [n|]; [|done]. intros Hneg. exists n. split; [done|].
    apply negb_true_iff, bool_decide_eq_false in Hneg. done.
  - intros (n & -> & Hmonth). apply negb_true_iff.
    by apply bool_decide_eq_false.
Qed.

Lemma render_events_rows full cs rows :
  render_events full cs = Return rows ->
  length rows = length cs /\
  forall i row, rows !! i = Some row ->
    exists c, cs !! i = Some c /\
              render_event full c (cs !! S i) = Return row.
Proof.
  revert rows. induction cs as [|c cs IH]; intros rows; simpl.
  - intros [= <-]. split; [done|]. intros i row Hrow.
    by rewrite lookup_nil in Hrow.
  - destruct (render_event full c (head cs)) as [r|] eqn:Hr; [|done].
    destruct (render_events full cs) as [rs|]; [|done].
    simpl. intros [= <-]. destruct (IH rs eq_refl) as [Hlen Hrows].
    split; [simpl; by rewrite Hlen|].
    intros [|i] row Hrow; simpl in Hrow.
    + injection Hrow as <-. exists c. split; [done|].
      simpl. by rewrite <- head_lookup.
    + by apply Hrows.
Qed.

Lemma render_events_throw full cs :
  render_events full cs = Throw <-> full = true /\ lacks_distances cs.
Proof.
  unfold lacks_distances. induction cs as [|c cs IH]; simpl.
  - split; [done|]. intros (_ & c & Hc & _). by apply elem_of_nil in Hc.
  - unfold render_event at 1.
    destruct full; simpl.
    + destruct (ev_distances c) as [ds|] eqn:Hds; simpl.
      * destruct (render_events true cs) as [rs|]; simpl.
        -- split; [done|]. intros (_ & c' & Hc' & Hnone).
           apply elem_of_cons in Hc' as [->|Hc']; [congruence|].
           destruct IH as [_ IH]. discriminate IH. eauto.
        -- split; [|done]. intros _. split; [done|].
           destruct IH as [IH _]. destruct (IH eq_refl) as (_ & c' & Hc' & ?).
           exists c'. split; [by apply elem_of_cons; right|done].
      * split; [|done]. intros _. split; [done|].
        exists c. split; [by apply elem_of_cons; left|done].
    + destruct (render_events false cs) as [rs|]; simpl.
      * split; [done|]. by intros [? _].
      * destruct IH as [IH _]. by destruct (IH eq_refl).
Qed.

Lemma renderCompetitionsTable_throw_iff (competitions : list event)
    (year currentYear : Z) :
  renderCompetitionsTable competitions year currentYear = Throw
  <-> full_version year currentYear /\ lacks_distances competitions.
Proof.
  unfold renderCompetitionsTable, full_version.
  destruct (render_events _ competitions) as [rows|] eqn:Hrows; simpl.
  - split; [done|]. intros [Hyear Hlack].
    assert (render_events (currentYear - 1 <=? year) competitions = Throw)
      as Hthrow.
    { apply render_events_throw. split; [by apply Z.leb_le|done]. }
    congruence.
  - split; [|done]. intros _.
    apply render_events_throw in Hrows as [Hfull Hlack].
    split; [by apply Z.leb_le|done].
Qed.

(** X27. The table has one row for each competition, in their order,
    with the competition's month in [data-month]; a row is marked
    [last-of-month] exactly when another competition follows and its
    month differs, so the last row of the table is never marked. *)
Theorem renderCompetitionsTable_rows (competitions : list event)
    (year currentYear : Z) (t : events_table) :
  renderCompetitionsTable competitions year currentYear = Return t ->
  length (table_rows t) = length competitions /\
  (forall i row, table_rows t !! i = Some row ->
     exists c, competitions !! i = Some c /\
       data_month row = toString (ev_month c) /\
       (last_of_month row = true <->
        exists next, competitions !! S i = Some next /\
                     ev_month c <> ev_month next)) /\
  (forall row, last (table_rows t) = Some row -> last_of_month row = false).
Proof.
  unfold renderCompetitionsTable.
  destruct (render_events _ competitions) as [rows|] eqn:Hrows; [|done].
  simpl. intros [= <-]. cbn [table_rows].
  apply render_events_rows in Hrows as [Hlen Hrows].
  assert (forall i row, rows !! i = Some row ->
            exists c, competitions !! i = Some c /\
              data_month row = toString (ev_month c) /\
              (last_of_month row = true <->
               exists next, competitions !! S i = Some next /\
                            ev_month c <> ev_month next)) as Hrow.
  { intros i row Hi. destruct (Hrows i row Hi) as (c & Hc & Hrender).
    apply render_event_returns in Hrender as (Hmonth & _ & Hlast & _).
    exists c. done. }
  split; [done|]. split; [done|].
  intros row Hlast. rewrite last_lookup in Hlast.
  destruct (Hrow _ _ Hlast) as (c & _ & _ & Hmark).
  destruct (last_of_month row); [|done].
  destruct Hmark as [Hmark _]. destruct (Hmark eq_refl) as (next & Hnext & _).
  apply lookup_lt_Some in Hnext.
  assert (rows <> []) as Hne by (intros ->; by rewrite lookup_nil in Hlast).
  destruct rows; [done|]. simpl in *. lia.
Qed.

Lemma renderCompetitionsTable_rows_witness :
  exists t,
    renderCompetitionsTable
      [MoreExamples.winter_run; MoreExamples.snow_trail;
       MoreExamples.ice_mile] 2023 2026 = Return t
    /\ length (table_rows t) = 3%nat.
Proof.
  eexists. split; [reflexivity|].
  apply (renderCompetitionsTable_rows
           [MoreExamples.winter_run; MoreExamples.snow_trail;
            MoreExamples.ice_mile] 2023 2026).
  reflexivity.
Defined.

(** X28. Rendering fails exactly for a year from last year on in which
    some competition has no [distances] array. The table of an older
    year is always rendered: it has no Distances column, and every
    competition's name is shown as it is, not as a link. *)
Theorem renderCompetitionsTable_versions (competitions : list event)
    (year currentYear : Z) :
  (renderCompetitionsTable competitions year currentYear = Throw
   <-> full_version year currentYear /\ lacks_distances competitions) /\
  (year < currentYear - 1 ->
   exists t,
     renderCompetitionsTable competitions year currentYear = Return t /\
     distances_header t = false /\
     map name_cell (table_rows t)
     = map (fun c => toString (ev_name c)) competitions /\
     Forall (fun row => distances_cell row = None) (table_rows t)).
Proof.
  split; [apply renderCompetitionsTable_throw_iff|].
  intros Hyear. unfold renderCompetitionsTable.
  assert ((currentYear - 1 <=? year) = false) as -> by (apply Z.leb_gt; lia).
  assert (exists rows,
             render_events false competitions = Return rows /\
             map name_cell rows
             = map (fun c => toString (ev_name c)) competitions /\
             Forall (fun row => distances_cell row = None) rows)
    as (rows & -> & Hnames & Hcells).
  { clear. induction competitions as [|c cs (rows & IH & Hnames & Hcells)].
    - exists []. simpl. done.
    - simpl. rewrite IH. simpl. eexists. split; [reflexivity|].
      simpl. rewrite Hnames. split; [done|]. by constructor. }
  simpl. eexists. split; [reflexivity|]. done.
Qed.

Lemma renderCompetitionsTable_versions_witness :
  (exists t,
      renderCompetitionsTable
        [MoreExamples.winter_run; MoreExamples.ice_mile] 2023 2026 = Return t
      /\ distances_header t = false)
  /\ renderCompetitionsTable
       [MoreExamples.winter_run; MoreExamples.ice_mile] 2025 2026 = Throw.
Proof.
  split.
  - destruct (proj2 (renderCompetitionsTable_versions
                       [MoreExamples.winter_run; MoreExamples.ice_mile]
                       2023 2026))
      as (t & Ht & Hheader & _); [lia|].
    exists t. split; [exact Ht|exact Hheader].
  - apply (proj1 (renderCompetitionsTable_versions
                    [MoreExamples.winter_run; MoreExamples.ice_mile]
                    2025 2026)).
    split; [unfold full_version; lia|].
    exists MoreExamples.ice_mile. split; [|reflexivity].
    apply elem_of_cons. right. apply elem_of_cons. left. reflexivity.
Defined.

(** X29. With its container on the page, [loadCompetitionsForYear]
    never fails: it shows the error message exactly when the fetch
    failed or the table could not be rendered, and the "being
    prepared" message exactly when the response was not ok. *)
Theorem loadCompetitionsForYear_shows (response : fetched (list event))
    (year currentYear : Z) (before : container_content) :
  let after :=
    loadCompetitionsForYear response year currentYear (Some before) in
  after.2 = Return tt /\
  (after.1 = Some (UnableToLoad (int_toString year))
   <-> response = FetchFailed \/
       exists competitions,
         response = ResponseOk competitions /\
         full_version year currentYear /\ lacks_distances competitions) /\
  (after.1 = Some (BeingPrepared (int_toString year))
   <-> response = ResponseNotOk) /\
  (forall t, after.1 = Some (CompetitionsTable t) ->
     exists competitions,
       response = ResponseOk competitions /\
       length (table_rows t) = length competitions).
Proof.
  simpl. destruct response as [| |competitions]; simpl.
  - repeat split; try done; auto; try (intros [|(? & ? & _)]; done).
  - repeat split; try done; try (intros [|(? & ? & _)]; done).
  - pose proof (renderCompetitionsTable_throw_iff competitions year
                  currentYear) as Hthrow.
    destruct (renderCompetitionsTable competitions year currentYear)
      as [t|] eqn:Hrender; simpl.
    + repeat split; try done.
      * intros [|(cs & [= <-] & Hlack)]; [done|].
        destruct Hthrow as [_ Hthrow]. by discriminate Hthrow.
      * intros t' [= <-]. exists competitions. split; [done|].
        unfold renderCompetitionsTable in Hrender.
        destruct (render_events _ competitions) as [rows|] eqn:Hrows;
          [|done].
        simpl in Hrender. injection Hrender as <-.
        by apply render_events_rows in Hrows as [Hlen _].
    + repeat split; try done.
      intros _. right. exists competitions. split; [done|].
      by apply Hthrow.
Qed.

Lemma loadCompetitionsForYear_shows_witness :
  (loadCompetitionsForYear
     (ResponseOk [MoreExamples.winter_run; MoreExamples.ice_mile])
     2026 2026 (Some (BeingPrepared (lit "2025")))).1
  = Some (UnableToLoad (int_toString 2026)).
Proof.
  apply (proj1 (proj2 (loadCompetitionsForYear_shows
                         (ResponseOk [MoreExamples.winter_run;
                                      MoreExamples.ice_mile])
                         2026 2026 (BeingPrepared (lit "2025"))))).
  right. exists [MoreExamples.winter_run; MoreExamples.ice_mile].
  split; [reflexivity|]. split; [unfold full_version; lia|].
  exists MoreExamples.ice_mile. split; [|reflexivity].
  apply elem_of_cons. right. apply elem_of_cons. left. reflexivity.
Defined.

(** ** Loading the all-competitions page *)

Lemma sortCompetitions_by_name `{Runtime} (data : list record) :
  exists out,
    sortCompetitions data (lit "name") true = Return out /\
    in_name_order data out.
Proof.
  destruct (sortCompetitions_text_returns (lit "name") eq_refl eq_refl
              data true) as [out Hout].
  exists out. split; [done|]. split.
  - pose proof (sortCompetitions_outcome data (lit "name") true) as Hperm.
    by rewrite Hout in Hperm.
  - by apply (sortCompetitions_text_ascending (lit "name") eq_refl eq_refl
                data).
Qed.

(** X30. When the document arrives, [loadAllCompetitions] never shows
    the error row: each list of the document (an empty one where the
    document has none) becomes the data of its table, each table
    that is on the page is filled with that list in the order of the
    names, each counter on the page shows the list's length, and the
    sort states are left alone. When the fetch fails or the response
    is not ok, each table on the page shows one error row and the data
    and counters stay as they were. *)
Theorem loadAllCompetitions_outcome `{Runtime}
    (response : fetched competitions_document) (p : page) (c : counters) :
  let after := loadAllCompetitions response p c in
  (forall data, response = ResponseOk data ->
     exists sorted1 sorted2 sorted3,
       in_name_order (default [] (doc_competitions data)) sorted1 /\
       in_name_order (default [] (doc_competitions_moldova data)) sorted2 /\
       in_name_order (default [] (doc_competitions_other data)) sorted3 /\
       after.1 =
         {| competitionsData := default [] (doc_competitions data);
            moldovaCompetitionsData :=
              default [] (doc_competitions_moldova data);
            otherCompetitionsData := default [] (doc_competitions_other data);
            sortState_table1 := sortState_table1 p;
            sortState_table2 := sortState_table2 p;
            sortState_table3 := sortState_table3 p;
            table_body_1 := populateTable1 (table_body_1 p) (Some sorted1);
            table_body_2 := populateTable2 (table_body_2 p) (Some sorted2);
            table_body_3 := populateTable3 (table_body_3 p) (Some sorted3) |}
       /\ after.2 =
            {| competition_count_1 :=
                 show_count (competition_count_1 c)
                   (length (default [] (doc_competitions data)));
               competition_count_2 :=
                 show_count (competition_count_2 c)
                   (length (default [] (doc_competitions_moldova data)));
               competition_count_3 :=
                 show_count (competition_count_3 c)
                   (length (default [] (doc_competitions_other data))) |})
  /\ ((forall data, response <> ResponseOk data) ->
      after.2 = c /\
      competitionsData after.1 = competitionsData p /\
      moldovaCompetitionsData after.1 = moldovaCompetitionsData p /\
      otherCompetitionsData after.1 = otherCompetitionsData p /\
      table_body_1 after.1 = show_error 8 (table_body_1 p) /\
      table_body_2 after.1 = show_error 6 (table_body_2 p) /\
      table_body_3 after.1 = show_error 5 (table_body_3 p)).
Proof.
  simpl. split.
  - intros data ->. unfold loadAllCompetitions, fetch_json_file.
    destruct (sortCompetitions_by_name (default [] (doc_competitions data)))
      as (sorted1 & -> & Horder1).
    destruct (sortCompetitions_by_name
                (default [] (doc_competitions_moldova data)))
      as (sorted2 & -> & Horder2).
    destruct (sortCompetitions_by_name
                (default [] (doc_competitions_other data)))
      as (sorted3 & -> & Horder3).
    exists sorted1, sorted2, sorted3. done.
  - intros Hresponse. unfold loadAllCompetitions, fetch_json_file.
    destruct response as [| |data]; [done|done|].
    by destruct (Hresponse data).
Qed.

Lemma loadAllCompetitions_outcome_witness :
  table_body_1
    (@loadAllCompetitions ReferenceRuntime.runtime ResponseNotOk
       MoreExamples.two_records_page
       {| competition_count_1 := None; competition_count_2 := None;
          competition_count_3 := None |}).1
  = show_error 8 (table_body_1 MoreExamples.two_records_page).
Proof.
  apply (proj2 (@loadAllCompetitions_outcome ReferenceRuntime.runtime
                  ResponseNotOk MoreExamples.two_records_page
                  {| competition_count_1 := None;
                     competition_count_2 := None;
                     competition_count_3 := None |})).
  discriminate.
Defined.
